(** * RF Monitor: the control loop of [rfmonitor/gui.py]

    A shallow embedding of [FrameMain], the single consumer of the scanner,
    GPS and server events, together with the per-frequency monitors it
    drives.

    Numbers.  Frequencies, power levels and timestamps are Python floats.
    Every finite float is a rational, and the code only compares them,
    copies them, adds them and halves them; they are embedded as [Q], with
    [==] on floats read as [Qeq_bool] and the arithmetic taken exact.  The
    only transcendental function, [numpy.log10], is a parameter.

    Effects.  Every handler returns the new frame, the list of outward
    effects it performed (message boxes, status texts, the [set_level]
    calls it made, records handed to the server, ...) and the exception
    that ended it, if any.  A Python exception leaves the mutations made
    before it in place, so a raising handler still returns a frame. *)

From Stdlib Require Import Ascii String QArith Qabs Lqa ZArith Lia Bool List.
Import ListNotations.

Local Open Scope Q_scope.

(** ** Numeric helpers *)

Definition Qltb (a b : Q) : bool := negb (Qle_bool b a).

(** ** Signals and monitors *)

Definition Location : Type := (Q * Q)%type.

(** A signal as [gui.py] sees it: [signal.end] may be [None]. *)
Record Signal : Type := mkSignal {
  sig_start : Q;
  sig_end : option Q;
  sig_position : option Location
}.

Module Monitor.

(** Modelled from the spec: the monitor class ([rfmonitor/monitor.py],
    [rfmonitor/panel_monitor.py]) is not part of the sources; the record
    follows the data model of section 3. *)
Record t : Type := mk {
  frequency : Q;
  enabled : bool;
  threshold : Q;
  calibrationOffset : Q;
  alertEnabled : bool;
  recording : bool;
  currentSignal : option Signal;
  signals : list Signal;
  periods : list (bool * Q)
}.

Definition with_current (m : t) (c : option Signal) : t :=
  mk (frequency m) (enabled m) (threshold m) (calibrationOffset m)
     (alertEnabled m) (recording m) c (signals m) (periods m).

Definition with_signals (m : t) (c : option Signal) (l : list Signal) : t :=
  mk (frequency m) (enabled m) (threshold m) (calibrationOffset m)
     (alertEnabled m) (recording m) c l (periods m).

(** The two states of section 4.2. *)
Inductive state : Type := Idle | Open.

Definition state_of (m : t) : state :=
  match currentSignal m with
  | None => Idle
  | Some _ => Open
  end.

(** The level a power value is compared with. *)
Definition trigger (m : t) : Q := threshold m + calibrationOffset m.

Definition close (c : Signal) (ts : Q) : Signal :=
  mkSignal (sig_start c) (Some ts) (sig_position c).

(** Modelled from the spec: the transition table of section 4.2, one
    power update [p] at timestamp [ts] with position [pos].  The result
    is the new monitor and the just-completed signal, if any. *)
Definition update (m : t) (p : option Q) (ts : Q) (pos : option Location)
  : t * option Signal :=
  match currentSignal m, p with
  | None, None => (m, None)
  | None, Some v =>
      if Qltb v (trigger m)
      then (m, None)
      else (with_current m (Some (mkSignal ts None pos)), None)
  | Some c, Some v =>
      if Qltb v (trigger m)
      then (with_signals m None (signals m ++ [close c ts]),
            Some (close c ts))
      else (m, None)
  | Some c, None =>
      (with_signals m None (signals m ++ [close c ts]), Some (close c ts))
  end.

(** Modelled from the spec: [set_level], the update entry point called by
    the control loop.  Section 3: while [recording] is false level
    updates are ignored and any open signal is forced closed, which is
    the [p == None] row of the table. *)
Definition set_level (m : t) (p : option Q) (ts : Q) (pos : option Location)
  : t * option Signal :=
  update m (if recording m then p else None) ts pos.

(** Modelled from the spec: [set_recording] toggles the recording flag
    and logs the toggle in the append-only [periods]; an interval still
    open when recording stops is closed with the stop timestamp. *)
Definition set_recording (m : t) (rec : bool) (ts : Q) : t :=
  let m' := if rec then m else fst (update m None ts None) in
  mk (frequency m') (enabled m') (threshold m') (calibrationOffset m')
     (alertEnabled m') rec (currentSignal m') (signals m')
     (periods m' ++ [(rec, ts)]).

(** Modelled from the spec: section 4.2, re-enabling a disabled monitor
    starts fresh from Idle. *)
Definition set_enabled (m : t) (e : bool) : t :=
  mk (frequency m) e (threshold m) (calibrationOffset m)
     (alertEnabled m) (recording m)
     (if e && negb (enabled m) then None else currentSignal m)
     (signals m) (periods m).

End Monitor.

(** ** The frame *)

(** [format_recording(freq, signal)]: the export record of section 6. *)
Record Recording : Type := mkRecording {
  rec_frequency : Q;
  rec_signal : Signal
}.

Record Toolbar : Type := mkToolbar {
  tb_freq : Q;
  tb_gain : Q;
  tb_cal : Q
}.

(** The arguments a [Receive] thread was started with. *)
Record Receive : Type := mkReceive {
  rx_freq : Q;
  rx_gain : Q;
  rx_cal : Q
}.

Inductive Server : Type := ServerHandle.

(** A pending [wx.CallLater(ms, self.__start_gps)]: when it was armed
    (seconds) and its delay (milliseconds).  [__start_gps] is the only
    callback [gui.py] ever schedules. *)
Record Timer : Type := mkTimer {
  armed_at : Q;
  delay_ms : Q
}.

Inductive Status : Type :=
| Msg (s : string)
| LocText (loc : Location).

Inductive Effect : Type :=
| MessageBox (msg : string)
| StatusText (st : Status)
| StderrWrite (msg : string)
| SetLevel (k : nat) (level : option Q) (ts : Q) (loc : option Location)
| ServerSend (r : Recording)
| AlertPlay
| CallLater (ms : Q)
| GpsCreate (id : nat)
| GpsStop (id : nat)
| ReceiveStop
| SaveRecordings (path : string).

Inductive Exn : Type := IndexError | ValueError.

(** The fields of [FrameMain] the handlers read and write, followed by the
    part of the environment they act on: the [Gps] instances still running
    ([running]), the next instance identity ([fresh]) and the armed wx
    timers.  Menu states, title, sizers and the timeline and spectrum
    dialogs are chrome and are left out. *)
Record Frame : Type := mkFrame {
  monitors : list Monitor.t;
  freqs : list Q;
  levels : list Q;
  filename : option string;
  receive : option Receive;
  gps : option nat;
  location : option Location;
  isSaved : bool;
  server : option Server;
  alertLast : Q;
  toolbar : Toolbar;
  gpsEnabled : bool;
  running : list nat;
  fresh : nat;
  timers : list Timer
}.

Definition set_monitors (v : list Monitor.t) (s : Frame) : Frame :=
  mkFrame v (freqs s) (levels s) (filename s) (receive s) (gps s)
    (location s) (isSaved s) (server s) (alertLast s) (toolbar s)
    (gpsEnabled s) (running s) (fresh s) (timers s).

Definition set_freqs (v : list Q) (s : Frame) : Frame :=
  mkFrame (monitors s) v (levels s) (filename s) (receive s) (gps s)
    (location s) (isSaved s) (server s) (alertLast s) (toolbar s)
    (gpsEnabled s) (running s) (fresh s) (timers s).

Definition set_levels (v : list Q) (s : Frame) : Frame :=
  mkFrame (monitors s) (freqs s) v (filename s) (receive s) (gps s)
    (location s) (isSaved s) (server s) (alertLast s) (toolbar s)
    (gpsEnabled s) (running s) (fresh s) (timers s).

Definition set_filename (v : option string) (s : Frame) : Frame :=
  mkFrame (monitors s) (freqs s) (levels s) v (receive s) (gps s)
    (location s) (isSaved s) (server s) (alertLast s) (toolbar s)
    (gpsEnabled s) (running s) (fresh s) (timers s).

Definition set_receive (v : option Receive) (s : Frame) : Frame :=
  mkFrame (monitors s) (freqs s) (levels s) (filename s) v (gps s)
    (location s) (isSaved s) (server s) (alertLast s) (toolbar s)
    (gpsEnabled s) (running s) (fresh s) (timers s).

Definition set_location (v : option Location) (s : Frame) : Frame :=
  mkFrame (monitors s) (freqs s) (levels s) (filename s) (receive s) (gps s)
    v (isSaved s) (server s) (alertLast s) (toolbar s)
    (gpsEnabled s) (running s) (fresh s) (timers s).

Definition set_isSaved (v : bool) (s : Frame) : Frame :=
  mkFrame (monitors s) (freqs s) (levels s) (filename s) (receive s) (gps s)
    (location s) v (server s) (alertLast s) (toolbar s)
    (gpsEnabled s) (running s) (fresh s) (timers s).

Definition set_server (v : option Server) (s : Frame) : Frame :=
  mkFrame (monitors s) (freqs s) (levels s) (filename s) (receive s) (gps s)
    (location s) (isSaved s) v (alertLast s) (toolbar s)
    (gpsEnabled s) (running s) (fresh s) (timers s).

Definition set_alertLast (v : Q) (s : Frame) : Frame :=
  mkFrame (monitors s) (freqs s) (levels s) (filename s) (receive s) (gps s)
    (location s) (isSaved s) (server s) v (toolbar s)
    (gpsEnabled s) (running s) (fresh s) (timers s).

Definition set_toolbar (v : Toolbar) (s : Frame) : Frame :=
  mkFrame (monitors s) (freqs s) (levels s) (filename s) (receive s) (gps s)
    (location s) (isSaved s) (server s) (alertLast s) v
    (gpsEnabled s) (running s) (fresh s) (timers s).

Definition set_gpsEnabled (v : bool) (s : Frame) : Frame :=
  mkFrame (monitors s) (freqs s) (levels s) (filename s) (receive s) (gps s)
    (location s) (isSaved s) (server s) (alertLast s) (toolbar s)
    v (running s) (fresh s) (timers s).

Definition set_timers (v : list Timer) (s : Frame) : Frame :=
  mkFrame (monitors s) (freqs s) (levels s) (filename s) (receive s) (gps s)
    (location s) (isSaved s) (server s) (alertLast s) (toolbar s)
    (gpsEnabled s) (running s) (fresh s) v.

(** [Gps(...)] and [gps.stop()] change the handle and the environment
    together. *)
Definition set_gps (v : option nat) (run : list nat) (nxt : nat) (s : Frame)
  : Frame :=
  mkFrame (monitors s) (freqs s) (levels s) (filename s) (receive s) v
    (location s) (isSaved s) (server s) (alertLast s) (toolbar s)
    (gpsEnabled s) run nxt (timers s).

(** ** Events and numpy helpers *)

(** The tagged events of [rfmonitor/events.py] that [__on_event] matches. *)
Inductive Event : Type :=
| SCAN_ERROR (msg : string)
| SCAN_DATA (l f : list Q) (timestamp : Q)
| SERVER_ERROR (msg : string)
| GPS_ERROR (msg : string)
| GPS_WARN (msg : string)
| GPS_TIMEOUT (msg : string)
| GPS_LOC (loc : Location)
| MON_ALERT
| CHANGED.

(** [numpy.where(x == fs)[0]]: every index whose entry equals [x], in
    increasing order, counted from [i]. *)
Fixpoint where_eq (x : Q) (fs : list Q) (i : nat) : list nat :=
  match fs with
  | [] => []
  | f :: rest =>
      if Qeq_bool x f then i :: where_eq x rest (S i)
      else where_eq x rest (S i)
  end.

(** [ls[index]] for an index array: [None] is numpy's [IndexError] for an
    index past the end. *)
Fixpoint take_indices (ls : list Q) (index : list nat) : option (list Q) :=
  match index with
  | [] => Some []
  | i :: rest =>
      match nth_error ls i, take_indices ls rest with
      | Some v, Some vs => Some (v :: vs)
      | _, _ => None
      end
  end.

(** [levels[numpy.where(freq == f)[0]][0]]: [None] is the [IndexError] of
    an out-of-range index or of [[0]] on an empty selection. *)
Definition level_at (f ls : list Q) (freq : Q) : option Q :=
  match take_indices ls (where_eq freq f 0) with
  | Some (v :: _) => Some v
  | _ => None
  end.

(** [acc += x; acc /= 2.] on one-dimensional arrays.  numpy adds
    elementwise when the shapes agree, broadcasts a one-element [x], and
    otherwise raises [ValueError] before anything is written ([None]). *)
Fixpoint add_halve (acc x : list Q) : list Q :=
  match acc, x with
  | a :: acc', b :: x' => ((a + b) / 2) :: add_halve acc' x'
  | _, _ => []
  end.

Definition smooth (acc x : list Q) : option (list Q) :=
  if Nat.eqb (length x) (length acc) then Some (add_halve acc x)
  else match x with
       | [b] => Some (map (fun a => (a + b) / 2) acc)
       | _ => None
       end.

(** [os.path.split(path)[1]]: what follows the last slash. *)
Fixpoint has_slash (s : string) : bool :=
  match s with
  | EmptyString => false
  | String c rest => Ascii.eqb c "/"%char || has_slash rest
  end.

Fixpoint path_tail (s : string) : string :=
  match s with
  | EmptyString => EmptyString
  | String c rest =>
      if has_slash rest then path_tail rest
      else if Ascii.eqb c "/"%char then rest else s
  end.

Definition is_some {A : Type} (o : option A) : bool :=
  match o with
  | Some _ => true
  | None => false
  end.

(** ** The lookup the specification describes *)

(** Spec-side definition, for comparison with [level_at]: section 4.3 asks
    for the power at the bin whose frequency matches exactly or is nearest
    to the monitor's frequency, within one bin width.  [nearest_from] keeps
    the closest bin seen so far (the lower bin on a tie); the bin width is
    the distance between the first two bins. *)
Fixpoint nearest_from (f : list Q) (freq : Q) (i : nat) (best : nat * Q)
  : nat * Q :=
  match f with
  | [] => best
  | x :: rest =>
      let d := Qabs (x - freq) in
      nearest_from rest freq (S i) (if Qltb d (snd best) then (i, d) else best)
  end.

Definition spec_level_at (f ls : list Q) (freq : Q) : option Q :=
  match f with
  | [] => None
  | x :: rest =>
      let width := match rest with
                   | y :: _ => Qabs (y - x)
                   | [] => 0
                   end in
      let '(i, d) := nearest_from rest freq 1 (0%nat, Qabs (x - freq)) in
      if Qle_bool d width then nth_error ls i else None
  end.

(** ** Sample inputs *)

Module Sample.

(** A stand-in for [numpy.log10] that is exact on the powers of ten the
    sample events carry. *)
Definition log10 (x : Q) : Q :=
  if Qeq_bool x 1 then 0
  else if Qeq_bool x 10 then 1
  else if Qeq_bool x 100 then 2
  else if Qeq_bool x (1 # 10) then -1
  else 0.

Definition BINS : nat := 4.
Definition LEVEL_MIN : Q := -100.
Definition GPS_RETRY : Q := 5.
Definition ALERT_LENGTH : Q := 5.
Definition psd_freqs : list Q := [-1 # 2; -1 # 4; 0; 1 # 4].

Definition no_file (name : string)
  : option (Q * Q * Q * list Monitor.t) := None.

Definition new_panel : Monitor.t :=
  Monitor.mk 100 true (-50) 0 false false None [] [].

(** The frequency axis and raw powers of one scan around 100 MHz. *)
Definition axis : list Q := [199 # 2; 399 # 4; 100; 401 # 4].
Definition powers : list Q := [1; 10; 100; 10].

(** A recording, enabled monitor on a bin centre, Idle. *)
Definition idle : Monitor.t :=
  Monitor.mk 100 true (-50) 0 true true None [] [].

(** The same monitor tuned between two bin centres. *)
Definition between : Monitor.t :=
  Monitor.mk (1001 # 10) true (-50) 0 true true None [] [].

(** A recording monitor with an interval open since [t = 100]. *)
Definition open_since_100 : Monitor.t :=
  Monitor.mk 100 true (-50) 0 true true
    (Some (mkSignal 100 None None)) [] [].

(** The same monitor after its panel was disabled. *)
Definition disabled_open : Monitor.t :=
  Monitor.mk 100 false (-50) 0 true true
    (Some (mkSignal 100 None None)) [] [].

Definition frame_of (ms : list Monitor.t) (last : Q) : Frame :=
  mkFrame ms axis [0; 0; 0; 0] None None None None true
    (Some ServerHandle) last (mkToolbar 100 0 0) true [] 0%nat [].


(** A recording monitor with a threshold above the sample levels and an
    interval open since [t = 100]: the next dispatch closes it. *)
Definition loud_open : Monitor.t :=
  Monitor.mk 100 true 30 0 true true
    (Some (mkSignal 100 None None)) [] [].

(** A file system with one readable file, which stores one monitor. *)
Definition night_file (name : string)
  : option (Q * Q * Q * list Monitor.t) :=
  if String.eqb name "night.rfmon"
  then Some (100, 0, 0, [idle])
  else None.

End Sample.

(** ** The handlers of [FrameMain] *)

Section Gui.

(** [numpy.log10] on one array entry. *)
Variable log10 : Q -> Q.

(** The constants of [rfmonitor/constants.py], which is not part of the
    sources, and the frequency axis [psd] returns for [BINS] bins at
    [SAMPLE_RATE], already divided by [1e6]. *)
Variable BINS : nat.
Variable LEVEL_MIN : Q.
Variable GPS_RETRY : Q.
Variable ALERT_LENGTH : Q.
Variable psd_freqs : list Q.

(** [load_recordings(filename)]: [None] is its [ValueError]. *)
Variable load_recordings :
  string -> option (Q * Q * Q * list Monitor.t).

(** The panel [PanelMonitor(self._window, self._frame)] builds. *)
Variable new_panel : Monitor.t.

(** *** GPS start, stop and restart *)

Definition start_gps (s : Frame) : Frame * list Effect :=
  match gps s with
  | None =>
      if gpsEnabled s
      then (set_gps (Some (fresh s)) (fresh s :: running s) (S (fresh s)) s,
            [StatusText (Msg "Staring GPS..."); GpsCreate (fresh s)])
      else (s, [])
  | Some _ => (s, [])
  end.

Definition stop_gps (s : Frame) : Frame * list Effect :=
  match gps s with
  | Some g =>
      (set_gps None (filter (fun i => negb (Nat.eqb i g)) (running s))
         (fresh s) s,
       [GpsStop g])
  | None => (s, [])
  end.

Definition restart_gps (now : Q) (s : Frame) : Frame * list Effect :=
  let '(s1, fx) := stop_gps s in
  (set_timers (timers s1 ++ [mkTimer now (GPS_RETRY * 1000)]) s1,
   fx ++ [CallLater (GPS_RETRY * 1000)]).

(** A timer armed at [armed_at] with delay [delay_ms] has expired at
    [now] (seconds). *)
Definition expired (now : Q) (t : Timer) : bool :=
  Qle_bool (delay_ms t) ((now - armed_at t) * 1000).

(** The one-shot callbacks wx runs at [now]: every expired timer is
    removed and calls [__start_gps], in arming order. *)
Fixpoint run_callbacks (n : nat) (s : Frame) : Frame * list Effect :=
  match n with
  | O => (s, [])
  | S n' =>
      let '(s1, fx1) := start_gps s in
      let '(s2, fx2) := run_callbacks n' s1 in
      (s2, fx1 ++ fx2)
  end.

Definition fire_timers (now : Q) (s : Frame) : Frame * list Effect :=
  let due := filter (expired now) (timers s) in
  let rest := filter (fun t => negb (expired now t)) (timers s) in
  run_callbacks (length due) (set_timers rest s).

(** *** Toolbar callbacks *)

Definition on_freq (freq : Q) (s : Frame) : Frame :=
  let s1 := set_freqs (map (fun o => o + freq) psd_freqs) s in
  match receive s1 with
  | Some r => set_receive (Some (mkReceive freq (rx_gain r) (rx_cal r))) s1
  | None => s1
  end.

Definition on_start (s : Frame) : Frame :=
  match receive s with
  | None =>
      set_receive
        (Some (mkReceive (tb_freq (toolbar s)) (tb_gain (toolbar s))
                 (tb_cal (toolbar s)))) s
  | Some _ => s
  end.

(** The loop of [__on_rec]; [k] is the position of the first monitor of
    [ms] in [self._monitors]. *)
Fixpoint rec_loop (rec : bool) (ts : Q) (k : nat) (ms : list Monitor.t)
  : list Monitor.t * list Effect :=
  match ms with
  | [] => ([], [])
  | m :: rest =>
      let '(rest', fx) := rec_loop rec ts (S k) rest in
      if rec
      then (Monitor.set_recording m rec ts :: rest', fx)
      else (Monitor.set_recording
              (fst (Monitor.set_level m None ts None)) rec ts :: rest',
            SetLevel k None ts None :: fx)
  end.

Definition on_rec (rec : bool) (now : Q) (s : Frame) : Frame * list Effect :=
  let s1 := if rec then on_start s else s in
  let '(ms, fx) := rec_loop rec now 0 (monitors s1) in
  (set_monitors ms s1, fx).

(** The loop of [__on_stop]: every monitor, enabled or not, is handed
    [LEVEL_MIN] with timestamp [0] and no position; the returned signal
    is dropped. *)
Fixpoint stop_loop (k : nat) (ms : list Monitor.t)
  : list Monitor.t * list Effect :=
  match ms with
  | [] => ([], [])
  | m :: rest =>
      let '(rest', fx) := stop_loop (S k) rest in
      (fst (Monitor.set_level m (Some LEVEL_MIN) 0 None) :: rest',
       SetLevel k (Some LEVEL_MIN) 0 None :: fx)
  end.

Definition on_stop (s : Frame) : Frame * list Effect :=
  let '(s1, fx1) :=
    match receive s with
    | Some _ => (set_receive None s, [ReceiveStop])
    | None => (s, [])
    end in
  let '(ms, fx2) := stop_loop 0 (monitors s1) in
  (set_monitors ms s1, fx1 ++ fx2).

Definition on_add (s : Frame) : Frame :=
  set_isSaved false (set_monitors (monitors s ++ [new_panel]) s).

Fixpoint remove_nth {A : Type} (k : nat) (l : list A) : list A :=
  match l, k with
  | [], _ => []
  | _ :: rest, O => rest
  | x :: rest, S k' => x :: remove_nth k' rest
  end.

(** [__on_del(monitor)], the panel identified by its position. *)
Definition on_del (k : nat) (s : Frame) : Frame :=
  set_isSaved false (set_monitors (remove_nth k (monitors s)) s).

(** *** Scan data *)

(** The monitor loop of [__on_scan_data] over the converted levels [lv],
    the event's frequency axis [f] and its timestamp; [srv] and [loc] are
    [self._server] and [self._location], which the loop does not write.
    The result is the monitors, the effects, the [updated] flag and the
    exception that cut the loop short. *)
Fixpoint scan_loop (lv f : list Q) (ts : Q) (loc : option Location)
  (srv : option Server) (k : nat) (ms : list Monitor.t)
  : list Monitor.t * list Effect * bool * option Exn :=
  match ms with
  | [] => ([], [], false, None)
  | m :: rest =>
      let freq := Monitor.frequency m in
      if Monitor.enabled m then
        match level_at f lv freq with
        | None => (m :: rest, [], false, Some IndexError)
        | Some v =>
            let '(m', signal) := Monitor.set_level m (Some v) ts loc in
            let sends :=
              match signal with
              | Some sg =>
                  if is_some (sig_end sg) && is_some srv
                  then [ServerSend (mkRecording freq sg)]
                  else []
              | None => []
              end in
            let '(rest', fx, upd, e) :=
              scan_loop lv f ts loc srv (S k) rest in
            (m' :: rest', SetLevel k (Some v) ts loc :: sends ++ fx,
             is_some signal || upd, e)
        end
      else
        let '(rest', fx, upd, e) := scan_loop lv f ts loc srv (S k) rest in
        (m :: rest', fx, upd, e)
  end.

Definition on_scan_data (l f : list Q) (ts : Q) (s : Frame)
  : Frame * list Effect * option Exn :=
  let lv := map (fun x => 10 * log10 x) l in
  match smooth (levels s) lv with
  | None => (s, [], Some ValueError)
  | Some acc =>
      let s1 := set_levels acc s in
      let '(ms, fx, updated, e) :=
        scan_loop lv f ts (location s1) (server s1) 0 (monitors s1) in
      let s2 := set_monitors ms s1 in
      match e with
      | Some x => (s2, fx, Some x)
      | None =>
          (if updated && isSaved s2 then set_isSaved false s2 else s2,
           fx, None)
      end
  end.

Definition on_scan_error (msg : string) (s : Frame) : Frame * list Effect :=
  (s, [MessageBox msg]).

Definition on_server_error (msg : string) (s : Frame)
  : Frame * list Effect :=
  (set_server None s, [StderrWrite msg]).

(** *** The event dispatcher; [now] is what [time.time()] returns. *)

Definition on_event (ev : Event) (now : Q) (s : Frame)
  : Frame * list Effect * option Exn :=
  match ev with
  | SCAN_ERROR msg =>
      let '(s1, fx) := on_scan_error msg s in (s1, fx, None)
  | SCAN_DATA l f ts => on_scan_data l f ts s
  | SERVER_ERROR msg =>
      let '(s1, fx) := on_server_error msg s in (s1, fx, None)
  | GPS_ERROR msg =>
      let '(s1, fx) := restart_gps now s in
      (s1, StatusText (Msg msg) :: fx, None)
  | GPS_WARN msg => (s, [StatusText (Msg msg)], None)
  | GPS_TIMEOUT msg =>
      let '(s1, fx) := restart_gps now s in
      (s1, StatusText (Msg msg) :: fx, None)
  | GPS_LOC loc =>
      (set_location (Some loc) s, [StatusText (LocText loc)], None)
  | MON_ALERT =>
      if Qle_bool ALERT_LENGTH (now - alertLast s)
      then (set_alertLast now s, [AlertPlay], None)
      else (s, [], None)
  | CHANGED => (set_isSaved false s, [], None)
  end.

(** *** Loading *)

(** [__add_monitors]: a fresh panel per loaded monitor, configured
    through the panel's setters. *)
Definition add_panel (m : Monitor.t) : Monitor.t :=
  let p := Monitor.set_enabled new_panel (Monitor.enabled m) in
  Monitor.mk (Monitor.frequency m) (Monitor.enabled p)
    (Monitor.threshold m) (Monitor.calibrationOffset p)
    (Monitor.alertEnabled m) (Monitor.recording p)
    (Monitor.currentSignal p)
    (Monitor.signals m) (Monitor.periods m).

Definition corrupt_msg (filename : string) : string :=
  ("'" ++ path_tail filename ++ "' is corrupt.")%string.

Definition open (filename : string) (s : Frame) : Frame * list Effect :=
  match load_recordings filename with
  | None => (s, [MessageBox (corrupt_msg filename)])
  | Some (freq, gain, cal, loaded) =>
      let s1 := set_filename (Some filename) s in
      let s2 := set_toolbar (mkToolbar freq gain cal) s1 in
      let s3 := set_isSaved false (set_monitors [] s2) in
      let s4 := set_monitors (monitors s3 ++ map add_panel loaded) s3 in
      (set_isSaved true s4, [])
  end.

(** [__on_open]: [ok] is the answer to the save warning, [choice] the
    path picked in the file dialog ([None] when cancelled). *)
Definition on_open (ok : bool) (choice : option string) (s : Frame)
  : Frame * list Effect :=
  if negb (isSaved s) && negb ok
  then (s, [MessageBox "Not saved, continue?"])
  else
    let warn :=
      if negb (isSaved s) then [MessageBox "Not saved, continue?"] else [] in
    match choice with
    | None => (s, warn)
    | Some path =>
        let '(s1, fx) := open path s in
        (set_isSaved true s1, warn ++ fx)
    end.

(** [__on_clear]: [ok] is the answer to the warning.  [monitor.clear()]
    is not part of the sources; [cleared] is the monitor list it leaves
    behind. *)
Definition on_clear (ok : bool) (cleared : list Monitor.t) (s : Frame)
  : Frame * list Effect :=
  if ok
  then (set_isSaved false (set_monitors cleared s),
        [MessageBox "Clear recorded data?"])
  else (s, [MessageBox "Clear recorded data?"]).

(** [__save(prompt)]: [choice] is the path picked in the file dialog
    when it is shown ([None] when cancelled). *)
Definition save (prompt : bool) (choice : option string) (s : Frame)
  : Frame * list Effect :=
  if prompt || negb (is_some (filename s)) then
    match choice with
    | None => (s, [])
    | Some path =>
        (set_isSaved true (set_filename (Some path) s),
         [SaveRecordings path])
    end
  else
    match filename s with
    | Some path => (set_isSaved true s, [SaveRecordings path])
    | None => (s, [])
    end.

(** [__on_gps]: [ok] is the dialog's answer, [en] the GPS enabled
    setting it leaves behind. *)
Definition on_gps (ok : bool) (en : bool) (s : Frame)
  : Frame * list Effect :=
  if ok then
    let '(s1, fx1) := stop_gps (set_gpsEnabled en s) in
    let '(s2, fx2) := start_gps s1 in
    (s2, fx1 ++ fx2)
  else (s, []).

(** *** The control loop *)

(** What the control thread can be asked to do: an event from the bus, a
    wx timer tick, a toolbar callback, a menu entry, or a panel widget.
    The widgets of a panel live in [panel_monitor.py]; whatever they do
    to their monitor is covered by [PanelEdit], which may replace it by
    any monitor, and [ToolEdit] does the same for the toolbar fields.
    The About, Timeline and Spectrum entries only drive dialogs, and
    Exit ends the session. *)
Inductive Op : Type :=
| Ev (e : Event) (now : Q)
| Tick (now : Q)
| ToolFreq (freq : Q)
| ToolStart
| ToolRec (rec : bool) (now : Q)
| ToolStop
| ToolAdd
| ToolEdit (tb : Toolbar)
| PanelDel (k : nat)
| PanelEdit (k : nat) (m : Monitor.t)
| MenuOpen (ok : bool) (choice : option string)
| MenuSave (prompt : bool) (choice : option string)
| MenuClear (ok : bool) (cleared : list Monitor.t)
| MenuGps (ok en : bool).

Fixpoint replace_nth {A : Type} (k : nat) (x : A) (l : list A) : list A :=
  match l, k with
  | [], _ => []
  | _ :: rest, O => x :: rest
  | y :: rest, S k' => y :: replace_nth k' x rest
  end.

Definition step (o : Op) (s : Frame) : Frame * list Effect * option Exn :=
  match o with
  | Ev e now => on_event e now s
  | Tick now => let '(s1, fx) := fire_timers now s in (s1, fx, None)
  | ToolFreq freq => (on_freq freq s, [], None)
  | ToolStart => (on_start s, [], None)
  | ToolRec rec now => let '(s1, fx) := on_rec rec now s in (s1, fx, None)
  | ToolStop => let '(s1, fx) := on_stop s in (s1, fx, None)
  | ToolAdd => (on_add s, [], None)
  | ToolEdit tb => (set_toolbar tb s, [], None)
  | PanelDel k => (on_del k s, [], None)
  | PanelEdit k m => (set_monitors (replace_nth k m (monitors s)) s, [], None)
  | MenuOpen ok choice =>
      let '(s1, fx) := on_open ok choice s in (s1, fx, None)
  | MenuSave prompt choice =>
      let '(s1, fx) := save prompt choice s in (s1, fx, None)
  | MenuClear ok cleared =>
      let '(s1, fx) := on_clear ok cleared s in (s1, fx, None)
  | MenuGps ok en => let '(s1, fx) := on_gps ok en s in (s1, fx, None)
  end.

(** A session: the operations in arrival order.  An exception ends its
    handler only; the loop goes on with the frame as the handler left
    it. *)
Fixpoint run (ops : list Op) (s : Frame) : Frame * list Effect :=
  match ops with
  | [] => (s, [])
  | o :: rest =>
      let '(s1, fx1, _) := step o s in
      let '(s2, fx2) := run rest s1 in
      (s2, fx1 ++ fx2)
  end.

(** [FrameMain.__init__] with the stored settings [freq], [gain], [cal]
    and the GPS enabled flag. *)
Definition init (freq gain cal : Q) (gps_on : bool) : Frame * list Effect :=
  let s0 :=
    mkFrame [] [] (repeat 0 BINS) None None None None true None 0
      (mkToolbar freq gain cal) gps_on [] 0%nat [] in
  let s1 := on_freq freq s0 in
  let s2 := set_server (Some ServerHandle) s1 in
  start_gps s2.

(** *** Leaving *)

(** What [__on_exit] does beyond the effects of the handlers it calls. *)
Inductive Final : Type :=
| Did (e : Effect)
| ServerStop
| SettingsSave (freq gain cal : Q)
| Destroy.

(** [__on_exit]: [ok] is the answer to the save warning.  The settings
    object is written from the toolbar by [__update_settings] and then
    saved. *)
Definition on_exit (ok : bool) (s : Frame) : Frame * list Final :=
  if negb (isSaved s) && negb ok
  then (s, [Did (MessageBox "Not saved, continue?")])
  else
    let warn :=
      if negb (isSaved s)
      then [Did (MessageBox "Not saved, continue?")] else [] in
    let '(s1, fx1) := on_stop s in
    let srv := match server s1 with
               | Some _ => [ServerStop]
               | None => []
               end in
    let '(s2, fx2) := stop_gps s1 in
    (s2,
     warn ++ map Did fx1 ++ srv ++ map Did fx2
       ++ [SettingsSave (tb_freq (toolbar s2)) (tb_gain (toolbar s2))
             (tb_cal (toolbar s2));
           Destroy]).

(** *** Title and menus *)

Section Title.

(** [APP_NAME] of [rfmonitor/constants.py]. *)
Variable APP_NAME : string.

(** The window title and the menu items [FrameMain] enables and
    disables. *)
Record Chrome : Type := mkChrome {
  title : string;
  menuSave : bool;
  menuSaveAs : bool;
  menuOpen : bool;
  menuClear : bool;
  menuGps : bool;
  menuExit : bool
}.

Definition set_title (s : Frame) (c : Chrome) : Chrome :=
  let named :=
    match filename s with
    | Some path => (APP_NAME ++ " - " ++ path_tail path)%string
    | None => APP_NAME
    end in
  mkChrome
    (if isSaved s then named else (named ++ "*")%string)
    (match filename s with
     | Some _ => negb (isSaved s)
     | None => false
     end)
    (negb (isSaved s))
    (menuOpen c) (menuClear c) (menuGps c) (menuExit c).

Definition has_recordings (s : Frame) : bool :=
  existsb (fun m => negb (Nat.eqb (length (Monitor.signals m)) 0))
    (monitors s).

Definition enable_controls (enable : bool) (s : Frame) (c : Chrome)
  : Chrome :=
  mkChrome (title c) (menuSave c) (menuSaveAs c)
    enable (enable && has_recordings s) enable enable.

(** [__on_scan_data] reaches its [__set_title] call: the loop ended
    without an exception, a monitor returned a signal and the frame was
    saved. *)
Definition scan_retitles (l f : list Q) (ts : Q) (s : Frame) : bool :=
  let lv := map (fun x => 10 * log10 x) l in
  match smooth (levels s) lv with
  | None => false
  | Some acc =>
      let '(_, _, updated, e) :=
        scan_loop lv f ts (location s) (server s) 0 (monitors s) in
      match e with
      | Some _ => false
      | None => updated && isSaved s
      end
  end.

(** The title and menu writes of [open], in the order of the source:
    [__set_title] right after the file name is stored, with the saved
    flag still as it was, and [__enable_controls(True)] once the loaded
    panels are in place. *)
Definition open_chrome (path : string) (s : Frame) (c : Chrome) : Chrome :=
  match load_recordings path with
  | None => c
  | Some _ =>
      enable_controls true (fst (open path s))
        (set_title (set_filename (Some path) s) c)
  end.

(** The title and menu writes of one operation on the frame [s]. *)
Definition chrome_step (o : Op) (s : Frame) (c : Chrome) : Chrome :=
  match o with
  | Ev (SCAN_DATA l f ts) _ =>
      if scan_retitles l f ts s
      then set_title (fst (fst (on_scan_data l f ts s))) c
      else c
  | Ev CHANGED _ => set_title (set_isSaved false s) c
  | Ev _ _ => c
  | Tick _ => c
  | ToolFreq _ => c
  | ToolStart => enable_controls false s c
  | ToolRec rec _ => if rec then enable_controls false s c else c
  | ToolStop => enable_controls true s c
  | ToolAdd => set_title (on_add s) c
  | ToolEdit _ => c
  | PanelDel k => set_title (on_del k s) c
  | PanelEdit _ _ => c
  | MenuOpen ok choice =>
      if negb (isSaved s) && negb ok then c
      else match choice with
           | None => c
           | Some path =>
               set_title (fst (on_open ok choice s)) (open_chrome path s c)
           end
  | MenuSave prompt choice =>
      if prompt || negb (is_some (filename s)) then
        match choice with
        | None => c
        | Some path =>
            set_title (fst (save prompt choice s))
              (set_title (set_filename (Some path) s) c)
        end
      else set_title (fst (save prompt choice s)) (set_title s c)
  | MenuClear ok cleared =>
      if ok then set_title (fst (on_clear ok cleared s)) c else c
  | MenuGps _ _ => c
  end.

(** A disabled menu item sends no event. *)
Definition offered (o : Op) (c : Chrome) : bool :=
  match o with
  | MenuOpen _ _ => menuOpen c
  | MenuSave prompt _ => if prompt then menuSaveAs c else menuSave c
  | MenuClear _ _ => menuClear c
  | MenuGps _ _ => menuGps c
  | _ => true
  end.

(** The frame with its title and menus: one operation, and a session. *)
Definition gui_step (o : Op) (g : Frame * Chrome) : Frame * Chrome :=
  if offered o (snd g)
  then (fst (fst (step o (fst g))), chrome_step o (fst g) (snd g))
  else g.

Fixpoint gui_run (ops : list Op) (g : Frame * Chrome) : Frame * Chrome :=
  match ops with
  | [] => g
  | o :: rest => gui_run rest (gui_step o g)
  end.

(** [__init__] ends with [__set_title()] and [__enable_controls(True)];
    [c0] is what the XRC resource shows before. *)
Definition gui_init (freq gain cal : Q) (gps_on : bool) (c0 : Chrome)
  : Frame * Chrome :=
  let s := fst (init freq gain cal gps_on) in
  (s, enable_controls true s (set_title s c0)).

End Title.

(** *** Observations on effect lists *)

(** The monitor positions of the [set_level] calls, in call order. *)
Definition call_indices (fx : list Effect) : list nat :=
  flat_map (fun e => match e with
                     | SetLevel k _ _ _ => [k]
                     | _ => []
                     end) fx.

(** The records handed to the server, in order. *)
Definition sent (fx : list Effect) : list Recording :=
  flat_map (fun e => match e with
                     | ServerSend r => [r]
                     | _ => []
                     end) fx.

(** The [Gps] instances created, in order. *)
Definition created (fx : list Effect) : list nat :=
  flat_map (fun e => match e with
                     | GpsCreate i => [i]
                     | _ => []
                     end) fx.

(** The positions, counted from [k], of the enabled monitors of [ms]. *)
Fixpoint enabled_positions (k : nat) (ms : list Monitor.t) : list nat :=
  match ms with
  | [] => []
  | m :: rest =>
      if Monitor.enabled m then k :: enabled_positions (S k) rest
      else enabled_positions (S k) rest
  end.

(** The number of recorded signals over all monitors. *)
Definition total_history (ms : list Monitor.t) : nat :=
  list_sum (map (fun m => length (Monitor.signals m)) ms).

(** *** Vocabulary of the statements *)

(** The operation is a GPS_LOC event. *)
Definition is_fix (o : Op) : bool :=
  match o with
  | Ev (GPS_LOC _) _ => true
  | _ => false
  end.

(** The operation is the Open or the Save entry. *)
Definition is_save_or_open (o : Op) : bool :=
  match o with
  | MenuOpen _ _ | MenuSave _ _ => true
  | _ => false
  end.

(** The operations whose handlers write the file name or the saved
    flag. *)
Definition writes_file (o : Op) : bool :=
  match o with
  | Ev (SCAN_DATA _ _ _) _ | Ev CHANGED _ => true
  | ToolAdd | PanelDel _ => true
  | MenuOpen _ _ | MenuSave _ _ | MenuClear _ _ => true
  | _ => false
  end.

(** The operations whose handlers create or drop the receiver. *)
Definition moves_receiver (o : Op) : bool :=
  match o with
  | ToolStart | ToolStop => true
  | ToolRec rec _ => rec
  | _ => false
  end.

(** The title and the two save entries show the file name and the saved
    flag of the frame. *)
Definition title_shows (app : string) (s : Frame) (c : Chrome) : Prop :=
  title c =
    (let named := match filename s with
                  | Some path => (app ++ " - " ++ path_tail path)%string
                  | None => app
                  end in
     if isSaved s then named else (named ++ "*")%string) /\
  menuSave c = is_some (filename s) && negb (isSaved s) /\
  menuSaveAs c = negb (isSaved s).

(** Open, GPS and Exit are offered exactly when there is no receiver, and
    Clear only then. *)
Definition menus_follow_receiver (s : Frame) (c : Chrome) : Prop :=
  menuOpen c = negb (is_some (receive s)) /\
  menuGps c = menuOpen c /\
  menuExit c = menuOpen c /\
  (menuClear c = true -> menuOpen c = true).

(** What one update can do: either nothing is appended and nothing is
    returned, or the monitor was Open, is now Idle, and the closed
    interval is both appended and returned. *)
Inductive update_outcome (m m' : Monitor.t) (r : option Signal) (ts : Q)
  : Prop :=
| Quiet :
    Monitor.signals m' = Monitor.signals m ->
    r = None ->
    ~ (Monitor.state_of m = Monitor.Open /\
       Monitor.state_of m' = Monitor.Idle) ->
    update_outcome m m' r ts
| Closed (c : Signal) :
    Monitor.currentSignal m = Some c ->
    Monitor.currentSignal m' = None ->
    Monitor.signals m' = Monitor.signals m ++ [Monitor.close c ts] ->
    r = Some (Monitor.close c ts) ->
    update_outcome m m' r ts.

(** A closed interval does not end before it starts. *)
Definition ordered (sg : Signal) : Prop :=
  match sig_end sg with
  | Some e => sig_start sg <= e
  | None => True
  end.

Definition history_ordered (m : Monitor.t) : Prop :=
  Forall ordered (Monitor.signals m).

(** Bin [i] is the first bin of the axis [f] whose frequency equals
    [freq]. *)
Definition exact_bin (f : list Q) (freq : Q) (i : nat) : Prop :=
  (exists fi, nth_error f i = Some fi /\ freq == fi) /\
  (forall j fj, (j < i)%nat -> nth_error f j = Some fj -> ~ freq == fj).

(** [s'] has the server handle and the last-alert time of [s]. *)
Definition keeps (s s' : Frame) : Prop :=
  server s' = server s /\ alertLast s' = alertLast s.

(** [fx] hands nothing to the server and plays no alert. *)
Definition silent (fx : list Effect) : Prop :=
  (forall r, ~ In (ServerSend r) fx) /\ ~ In AlertPlay fx.

(** The operation is a MON_ALERT event. *)
Definition is_alert (o : Op) : bool :=
  match o with
  | Ev MON_ALERT _ => true
  | _ => false
  end.

(** How often the alert sound is played in a list of effects. *)
Definition alerts (fx : list Effect) : nat :=
  length (filter (fun e => match e with AlertPlay => true | _ => false end)
            fx).

(** The running [Gps] instances are exactly the one the frame holds. *)
Definition gps_inv (s : Frame) : Prop :=
  running s = match gps s with
              | Some g => [g]
              | None => []
              end.

(** [s'] has the GPS handle and the running instances of [s]. *)
Definition same_gps (s s' : Frame) : Prop :=
  gps s' = gps s /\ running s' = running s.

(** ** Facts about the monitor state machine *)



Lemma update_cases (m : Monitor.t) (p : option Q) (ts : Q)
  (pos : option Location) :
  update_outcome m (fst (Monitor.update m p ts pos))
    (snd (Monitor.update m p ts pos)) ts.
Proof.
  unfold Monitor.update.
  destruct (Monitor.currentSignal m) as [c |] eqn:Hc; destruct p as [v |];
    try destruct (Qltb v (Monitor.trigger m)); cbn [fst snd].
  - now apply (Closed _ _ _ _ c).
  - apply Quiet; try reflexivity.
    unfold Monitor.state_of. rewrite Hc. intros [_ H]. discriminate.
  - now apply (Closed _ _ _ _ c).
  - apply Quiet; try reflexivity.
    unfold Monitor.state_of. rewrite Hc. intros [H _]. discriminate.
  - apply Quiet; try reflexivity.
    unfold Monitor.state_of. cbn. rewrite Hc. intros [H _]. discriminate.
  - apply Quiet; try reflexivity.
    unfold Monitor.state_of. rewrite Hc. intros [H _]. discriminate.
Qed.

Lemma set_level_cases (m : Monitor.t) (p : option Q) (ts : Q)
  (pos : option Location) :
  update_outcome m (fst (Monitor.set_level m p ts pos))
    (snd (Monitor.set_level m p ts pos)) ts.
Proof. unfold Monitor.set_level. apply update_cases. Qed.

(** [set_level] writes nothing but [currentSignal] and [signals]. *)
Lemma set_level_frame (m : Monitor.t) (p : option Q) (ts : Q)
  (pos : option Location) :
  let m' := fst (Monitor.set_level m p ts pos) in
  Monitor.frequency m' = Monitor.frequency m /\
  Monitor.enabled m' = Monitor.enabled m /\
  Monitor.threshold m' = Monitor.threshold m /\
  Monitor.calibrationOffset m' = Monitor.calibrationOffset m /\
  Monitor.recording m' = Monitor.recording m.
Proof.
  unfold Monitor.set_level, Monitor.update.
  destruct (Monitor.currentSignal m);
    destruct (if Monitor.recording m then p else None);
    try destruct (Qltb _ _); cbn; auto.
Qed.


(** An update whose timestamp is not earlier than the start of the open
    interval keeps the history ordered, and the interval it may open
    starts at that timestamp. *)
Lemma set_level_keeps_order (m : Monitor.t) (p : option Q) (ts : Q)
  (pos : option Location) :
  history_ordered m ->
  (forall c, Monitor.currentSignal m = Some c -> sig_start c <= ts) ->
  let m' := fst (Monitor.set_level m p ts pos) in
  history_ordered m' /\
  (forall c, Monitor.currentSignal m' = Some c ->
             Monitor.currentSignal m = Some c \/ sig_start c = ts).
Proof.
  intros Hh Hc. unfold Monitor.set_level, Monitor.update, history_ordered.
  destruct (Monitor.currentSignal m) as [c |] eqn:E;
    destruct (if Monitor.recording m then p else None) as [v |];
    try destruct (Qltb v (Monitor.trigger m)); cbn [fst].
  - split; [| cbn; intros ? H; discriminate].
    cbn. apply Forall_app. split; [exact Hh |].
    constructor; [| constructor]. unfold ordered. cbn. now apply Hc.
  - split; [exact Hh |]. intros c0 H0. left. congruence.
  - split; [| cbn; intros ? H; discriminate].
    cbn. apply Forall_app. split; [exact Hh |].
    constructor; [| constructor]. unfold ordered. cbn. now apply Hc.
  - split; [exact Hh |]. intros c0 H0. left. congruence.
  - split; [exact Hh |]. cbn. intros c0 H0. right.
    inversion H0; subst. reflexivity.
  - split; [exact Hh |]. intros c0 H0. left. congruence.
Qed.

(** ** Facts about the bin lookup *)

Lemma where_eq_head (x : Q) (f : list Q) (k i : nat) (rest : list nat) :
  where_eq x f k = i :: rest ->
  exists j, i = (k + j)%nat /\ exact_bin f x j.
Proof.
  revert k. induction f as [| a f IH]; intros k H; cbn in H.
  - discriminate.
  - destruct (Qeq_bool x a) eqn:E.
    + inversion H; subst. exists 0%nat. split; [lia |].
      split.
      * exists a. split; [reflexivity | now apply Qeq_bool_iff].
      * intros j fj Hj. lia.
    + destruct (IH _ H) as [j [Hi [[fi [Hn Hq]] Hmin]]].
      exists (S j). split; [lia |].
      split.
      * exists fi. now split.
      * intros j' fj Hlt Hn'. destruct j' as [| j']; cbn in Hn'.
        -- inversion Hn'; subst. intro Hq'.
           apply Qeq_bool_iff in Hq'. congruence.
        -- apply (Hmin j' fj); [lia | assumption].
Qed.

Lemma where_eq_nil (x : Q) (f : list Q) (k : nat) :
  where_eq x f k = [] ->
  forall j fj, nth_error f j = Some fj -> ~ x == fj.
Proof.
  revert k. induction f as [| a f IH]; intros k H j fj Hn.
  - destruct j; discriminate.
  - cbn in H. destruct (Qeq_bool x a) eqn:E; [discriminate |].
    destruct j as [| j]; cbn in Hn.
    + inversion Hn; subst. intro Hq. apply Qeq_bool_iff in Hq. congruence.
    + now apply (IH _ H j).
Qed.

Lemma level_at_exact (f lv : list Q) (freq v : Q) :
  level_at f lv freq = Some v ->
  exists i, exact_bin f freq i /\ nth_error lv i = Some v.
Proof.
  unfold level_at. intro H.
  destruct (where_eq freq f 0) as [| i rest] eqn:W; cbn in H;
    [discriminate |].
  destruct (nth_error lv i) as [vi |] eqn:N; [| discriminate].
  destruct (take_indices lv rest); [| discriminate].
  inversion H; subst.
  destruct (where_eq_head _ _ _ _ _ W) as [j [Hi Hb]].
  cbn in Hi. subst. now exists j.
Qed.

Lemma level_at_no_match (f lv : list Q) (freq : Q) :
  (forall j fj, nth_error f j = Some fj -> ~ freq == fj) ->
  level_at f lv freq = None.
Proof.
  intro H. unfold level_at.
  destruct (where_eq freq f 0) as [| i rest] eqn:W; [reflexivity |].
  destruct (where_eq_head _ _ _ _ _ W) as [j [_ [[fi [Hn Hq]] _]]].
  exfalso. exact (H _ _ Hn Hq).
Qed.

(** ** Facts about the scan loop *)

Ltac scan_step H :=
  let Hen := fresh "Hen" in
  let v := fresh "v" in
  let Hlv := fresh "Hlv" in
  let m' := fresh "m'" in
  let sg := fresh "sg" in
  let Hset := fresh "Hset" in
  let r1 := fresh "r1" in
  let f1 := fresh "f1" in
  let u1 := fresh "u1" in
  let e1 := fresh "e1" in
  let Hrest := fresh "Hrest" in
  cbn [scan_loop] in H;
  match type of H with
  | context [Monitor.enabled ?a] => destruct (Monitor.enabled a) eqn:Hen
  end;
  [ match type of H with
    | context [level_at ?f ?lv ?x] =>
        destruct (level_at f lv x) as [v |] eqn:Hlv
    end;
    [ match type of H with
      | context [Monitor.set_level ?a ?p ?t ?l] =>
          destruct (Monitor.set_level a p t l) as [m' sg] eqn:Hset
      end;
      match type of H with
      | context [scan_loop ?lv ?f ?ts ?loc ?srv ?k ?r] =>
          destruct (scan_loop lv f ts loc srv k r)
            as [[[r1 f1] u1] e1] eqn:Hrest
      end
    | ]
  | match type of H with
    | context [scan_loop ?lv ?f ?ts ?loc ?srv ?k ?r] =>
        destruct (scan_loop lv f ts loc srv k r)
          as [[[r1 f1] u1] e1] eqn:Hrest
    end ];
  inversion H; subst; clear H.

(** Every [set_level] call of the loop goes to an enabled monitor and
    carries the level of the first bin matching its frequency exactly. *)
Lemma scan_loop_calls lv f ts loc srv k ms ms' fx upd e :
  scan_loop lv f ts loc srv k ms = (ms', fx, upd, e) ->
  forall i lvl t l,
    In (SetLevel i lvl t l) fx ->
    exists j m v,
      i = (k + j)%nat /\ nth_error ms j = Some m /\
      Monitor.enabled m = true /\
      level_at f lv (Monitor.frequency m) = Some v /\
      lvl = Some v /\ t = ts /\ l = loc.
Proof.
  revert k ms' fx upd e.
  induction ms as [| a ms IH]; intros k ms' fx upd e H i lvl t l Hin.
  - inversion H; subst. contradiction.
  - scan_step H.
    + cbn in Hin. destruct Hin as [Heq | Hin].
      * inversion Heq; subst. exists 0%nat, a, v.
        repeat split; auto.
      * apply in_app_or in Hin. destruct Hin as [Hin | Hin].
        -- destruct sg as [sg |]; [| contradiction].
           destruct (is_some (sig_end sg) && is_some srv);
             [| contradiction].
           destruct Hin as [Hx | []]. discriminate.
        -- destruct (IH _ _ _ _ _ Hrest _ _ _ _ Hin)
             as [j [m [w [Hi Hj]]]].
           exists (S j), m, w. split; [lia | exact Hj].
    + contradiction.
    + destruct (IH _ _ _ _ _ Hrest _ _ _ _ Hin) as [j [m [w [Hi Hj]]]].
      exists (S j), m, w. split; [lia | exact Hj].
Qed.

(** A disabled monitor comes out of the loop as it went in. *)
Lemma scan_loop_disabled lv f ts loc srv k ms ms' fx upd e :
  scan_loop lv f ts loc srv k ms = (ms', fx, upd, e) ->
  forall j m,
    nth_error ms j = Some m -> Monitor.enabled m = false ->
    nth_error ms' j = Some m.
Proof.
  revert k ms' fx upd e.
  induction ms as [| a ms IH]; intros k ms' fx upd e H j m Hn Hd.
  - destruct j; discriminate.
  - scan_step H.
    + destruct j as [| j]; cbn in Hn |- *.
      * inversion Hn; subst. congruence.
      * eapply IH; eauto.
    + exact Hn.
    + destruct j as [| j]; cbn in Hn |- *; [exact Hn |].
      eapply IH; eauto.
Qed.

(** A loop that ends without an exception has called every enabled
    monitor. *)
Lemma scan_loop_complete lv f ts loc srv k ms ms' fx upd :
  scan_loop lv f ts loc srv k ms = (ms', fx, upd, None) ->
  forall j m,
    nth_error ms j = Some m -> Monitor.enabled m = true ->
    exists v, level_at f lv (Monitor.frequency m) = Some v /\
              In (SetLevel (k + j) (Some v) ts loc) fx.
Proof.
  revert k ms' fx upd.
  induction ms as [| a ms IH]; intros k ms' fx upd H j m Hn He.
  - destruct j; discriminate.
  - scan_step H.
    + destruct j as [| j]; cbn in Hn.
      * inversion Hn; subst. exists v. split; [assumption |].
        left. f_equal. lia.
      * destruct (IH _ _ _ _ Hrest _ _ Hn He) as [w [Hw Hin]].
        exists w. split; [assumption |].
        right. apply in_or_app. right.
        replace (k + S j)%nat with (S k + j)%nat by lia. exact Hin.
    + destruct j as [| j]; cbn in Hn.
      * inversion Hn; subst. congruence.
      * destruct (IH _ _ _ _ Hrest _ _ Hn He) as [w [Hw Hin]].
        exists w. split; [assumption |].
        replace (k + S j)%nat with (S k + j)%nat by lia. exact Hin.
Qed.

(** Without a server handle the loop hands nothing to the server. *)
Lemma scan_loop_no_send lv f ts loc k ms ms' fx upd e :
  scan_loop lv f ts loc None k ms = (ms', fx, upd, e) ->
  forall r, ~ In (ServerSend r) fx.
Proof.
  revert k ms' fx upd e.
  induction ms as [| a ms IH]; intros k ms' fx upd e H r Hin.
  - inversion H; subst. contradiction.
  - scan_step H.
    + cbn in Hin. destruct Hin as [Hx | Hin]; [discriminate |].
      apply in_app_or in Hin. destruct Hin as [Hin | Hin].
      * destruct sg as [sg |]; [| contradiction].
        rewrite andb_false_r in Hin. contradiction.
      * eapply IH; eauto.
    + contradiction.
    + eapply IH; eauto.
Qed.

(** The server handle decides the sends and nothing else. *)
Lemma scan_loop_server_indep lv f ts loc srv srv' k ms :
  let '(ms1, _, upd1, e1) := scan_loop lv f ts loc srv k ms in
  let '(ms2, _, upd2, e2) := scan_loop lv f ts loc srv' k ms in
  ms1 = ms2 /\ upd1 = upd2 /\ e1 = e2.
Proof.
  revert k. induction ms as [| a ms IH]; intro k; cbn [scan_loop].
  - auto.
  - specialize (IH (S k)).
    destruct (Monitor.enabled a).
    + destruct (level_at f lv (Monitor.frequency a)); [| auto].
      destruct (Monitor.set_level a (Some q) ts loc) as [m' sg].
      destruct (scan_loop lv f ts loc srv (S k) ms) as [[[r1 f1] u1] e1].
      destruct (scan_loop lv f ts loc srv' (S k) ms) as [[[r2 f2] u2] e2].
      destruct IH as [-> [-> ->]]. auto.
    + destruct (scan_loop lv f ts loc srv (S k) ms) as [[[r1 f1] u1] e1].
      destruct (scan_loop lv f ts loc srv' (S k) ms) as [[[r2 f2] u2] e2].
      destruct IH as [-> [-> ->]]. auto.
Qed.

(** A signal the loop returns is in the history of the monitor that
    returned it. *)
Lemma set_level_returned (m : Monitor.t) p ts pos m' sg :
  Monitor.set_level m p ts pos = (m', Some sg) ->
  In sg (Monitor.signals m') /\
  Monitor.frequency m' = Monitor.frequency m.
Proof.
  intro H.
  pose proof (set_level_cases m p ts pos) as Hc.
  pose proof (set_level_frame m p ts pos) as Hf.
  rewrite H in Hc, Hf. cbn in Hc, Hf.
  split; [| apply Hf].
  destruct Hc as [_ Hr _ | c _ _ Hs Hr]; [discriminate |].
  inversion Hr; subst. rewrite Hs. apply in_or_app. right. now left.
Qed.

Lemma scan_loop_sent_recorded lv f ts loc srv k ms ms' fx upd e :
  scan_loop lv f ts loc srv k ms = (ms', fx, upd, e) ->
  forall r,
    In (ServerSend r) fx ->
    exists j m',
      nth_error ms' j = Some m' /\
      Monitor.frequency m' = rec_frequency r /\
      In (rec_signal r) (Monitor.signals m').
Proof.
  revert k ms' fx upd e.
  induction ms as [| a ms IH]; intros k ms' fx upd e H r Hin.
  - inversion H; subst. contradiction.
  - scan_step H.
    + cbn in Hin. destruct Hin as [Hx | Hin]; [discriminate |].
      apply in_app_or in Hin. destruct Hin as [Hin | Hin].
      * destruct sg as [sg |]; [| contradiction].
        destruct (is_some (sig_end sg) && is_some srv); [| contradiction].
        destruct Hin as [Hx | []]. inversion Hx; subst.
        destruct (set_level_returned _ _ _ _ _ _ Hset) as [Hs Hf].
        exists 0%nat, m'. cbn. auto.
      * destruct (IH _ _ _ _ _ Hrest _ Hin) as [j [n Hj]].
        exists (S j), n. exact Hj.
    + contradiction.
    + destruct (IH _ _ _ _ _ Hrest _ Hin) as [j [n Hj]].
      exists (S j), n. exact Hj.
Qed.

(** ** Facts about the other loops *)

Lemma stop_loop_calls (k : nat) (ms : list Monitor.t) :
  forall j m,
    nth_error ms j = Some m ->
    In (SetLevel (k + j) (Some LEVEL_MIN) 0 None) (snd (stop_loop k ms)) /\
    nth_error (fst (stop_loop k ms)) j =
      Some (fst (Monitor.set_level m (Some LEVEL_MIN) 0 None)).
Proof.
  revert k. induction ms as [| a ms IH]; intros k j m Hn.
  - destruct j; discriminate.
  - cbn [stop_loop]. specialize (IH (S k)).
    destruct (stop_loop (S k) ms) as [rest' fx]. cbn [fst snd] in *.
    destruct j as [| j]; cbn in Hn.
    + inversion Hn; subst. split; [| reflexivity].
      left. f_equal. lia.
    + destruct (IH _ _ Hn) as [Hin Hnth]. split; [| exact Hnth].
      right. replace (k + S j)%nat with (S k + j)%nat by lia. exact Hin.
Qed.

Lemma rec_loop_off_calls (ts : Q) (k : nat) (ms : list Monitor.t) :
  forall j m,
    nth_error ms j = Some m ->
    In (SetLevel (k + j) None ts None) (snd (rec_loop false ts k ms)).
Proof.
  revert k. induction ms as [| a ms IH]; intros k j m Hn.
  - destruct j; discriminate.
  - cbn [rec_loop]. specialize (IH (S k)).
    destruct (rec_loop false ts (S k) ms) as [rest' fx]. cbn [fst snd] in *.
    destruct j as [| j]; cbn in Hn.
    + left. f_equal. lia.
    + right. replace (k + S j)%nat with (S k + j)%nat by lia.
      now apply (IH j m).
Qed.

Lemma rec_loop_no_send (rec : bool) (ts : Q) (k : nat)
  (ms : list Monitor.t) :
  forall r, ~ In (ServerSend r) (snd (rec_loop rec ts k ms)).
Proof.
  revert k. induction ms as [| a ms IH]; intros k r; cbn [rec_loop].
  - intros [].
  - specialize (IH (S k) r).
    destruct (rec_loop rec ts (S k) ms) as [rest' fx].
    destruct rec; cbn [fst snd] in *; [exact IH |].
    intros [Hx | Hin]; [discriminate | contradiction].
Qed.

Lemma stop_loop_no_send (k : nat) (ms : list Monitor.t) :
  forall r, ~ In (ServerSend r) (snd (stop_loop k ms)).
Proof.
  revert k. induction ms as [| a ms IH]; intros k r; cbn [stop_loop].
  - intros [].
  - specialize (IH (S k) r).
    destruct (stop_loop (S k) ms) as [rest' fx]. cbn [fst snd] in *.
    intros [Hx | Hin]; [discriminate | contradiction].
Qed.

(** ** Facts about the smoothed spectrum *)

Lemma add_halve_length (acc x : list Q) :
  length x = length acc -> length (add_halve acc x) = length acc.
Proof.
  revert x. induction acc as [| a acc IH]; intros [| b x] H; cbn in *;
    try discriminate; try reflexivity.
  f_equal. apply IH. lia.
Qed.

Lemma add_halve_nth (acc x : list Q) (i : nat) (a b : Q) :
  nth_error acc i = Some a ->
  nth_error x i = Some b ->
  nth_error (add_halve acc x) i = Some ((a + b) / 2).
Proof.
  revert x i. induction acc as [| a0 acc IH]; intros [| b0 x] [| i] Ha Hb;
    cbn in *; try discriminate.
  - now inversion Ha; inversion Hb; subst.
  - now apply IH.
Qed.

Lemma smooth_same_length (acc x : list Q) :
  length x = length acc -> smooth acc x = Some (add_halve acc x).
Proof.
  intro H. unfold smooth. rewrite H, Nat.eqb_refl. reflexivity.
Qed.

(** The levels [__on_scan_data] leaves behind do not depend on the
    monitor loop. *)
Lemma on_scan_data_levels (l f : list Q) (ts : Q) (s : Frame) :
  levels (fst (fst (on_scan_data l f ts s))) =
    match smooth (levels s) (map (fun x => 10 * log10 x) l) with
    | Some acc => acc
    | None => levels s
    end.
Proof.
  unfold on_scan_data.
  destruct (smooth (levels s) (map (fun x => 10 * log10 x) l)) as [acc |];
    [| reflexivity].
  destruct (scan_loop _ _ _ _ _ _ _) as [[[ms fx] upd] e].
  destruct e; [reflexivity |].
  destruct (upd && _); reflexivity.
Qed.

(** ** The claims about scan dispatch *)

(** C1, as amended.  In a SCAN_DATA dispatch every power value handed to
    an enabled monitor is the converted level of the first bin whose
    frequency equals the monitor's frequency exactly, with the event's
    timestamp and the last known position; a dispatch that ends without
    an exception has handed that value to the monitor; and a monitor
    whose frequency equals no bin frequency is handed nothing, the
    dispatch ending in an exception.  There is no nearest-bin lookup. *)
Theorem scan_data_routes_exact_bin
  (l f : list Q) (ts : Q) (s : Frame) (k : nat) (m : Monitor.t) :
  nth_error (monitors s) k = Some m ->
  Monitor.enabled m = true ->
  let lv := map (fun x => 10 * log10 x) l in
  let '(_, fx, e) := on_scan_data l f ts s in
  (forall lvl t loc,
     In (SetLevel k lvl t loc) fx ->
     exists i v,
       exact_bin f (Monitor.frequency m) i /\ nth_error lv i = Some v /\
       lvl = Some v /\ t = ts /\ loc = location s) /\
  (e = None ->
   exists i v,
     exact_bin f (Monitor.frequency m) i /\ nth_error lv i = Some v /\
     In (SetLevel k (Some v) ts (location s)) fx) /\
  ((forall j fj, nth_error f j = Some fj -> ~ Monitor.frequency m == fj) ->
   e <> None /\ forall lvl t loc, ~ In (SetLevel k lvl t loc) fx).
Proof.
  intros Hn He lv. unfold on_scan_data. fold lv.
  destruct (smooth (levels s) lv) as [acc |].
  2:{ split; [intros ? ? ? [] |].
      split; [discriminate |].
      intros _. split; [discriminate | intros ? ? ? []]. }
  cbn [monitors location server set_levels].
  destruct (scan_loop lv f ts (location s) (server s) 0 (monitors s))
    as [[[ms fx] upd] e] eqn:Hloop.
  assert (Hcalls :
    forall lvl t loc,
      In (SetLevel k lvl t loc) fx ->
      exists i v,
        exact_bin f (Monitor.frequency m) i /\ nth_error lv i = Some v /\
        lvl = Some v /\ t = ts /\ loc = location s).
  { intros lvl t loc Hin.
    destruct (scan_loop_calls _ _ _ _ _ _ _ _ _ _ _ Hloop _ _ _ _ Hin)
      as [j [m0 [v [Hk [Hj [_ [Hlv Hrest]]]]]]].
    cbn in Hk. subst j. rewrite Hn in Hj. inversion Hj; subst m0.
    destruct (level_at_exact _ _ _ _ Hlv) as [i [Hb Hi]].
    exists i, v. auto. }
  assert (Hdone :
    e = None ->
    exists i v,
      exact_bin f (Monitor.frequency m) i /\ nth_error lv i = Some v /\
      In (SetLevel k (Some v) ts (location s)) fx).
  { intros ->.
    destruct (scan_loop_complete _ _ _ _ _ _ _ _ _ _ Hloop _ _ Hn He)
      as [v [Hlv Hin]].
    destruct (level_at_exact _ _ _ _ Hlv) as [i [Hb Hi]].
    exists i, v. auto. }
  assert (Hnone :
    (forall j fj, nth_error f j = Some fj -> ~ Monitor.frequency m == fj) ->
    e <> None /\ forall lvl t loc, ~ In (SetLevel k lvl t loc) fx).
  { intro Hno. split.
    - intro Hnil. destruct (Hdone Hnil) as [i [v [[[fi [Hf Hq]] _] _]]].
      exact (Hno _ _ Hf Hq).
    - intros lvl t loc Hin.
      destruct (Hcalls _ _ _ Hin) as [i [v [[[fi [Hf Hq]] _] _]]].
      exact (Hno _ _ Hf Hq). }
  destruct e as [x |]; exact (conj Hcalls (conj Hdone Hnone)).
Qed.

(** C3, as amended.  In a SCAN_DATA dispatch a disabled monitor is
    handed no [set_level] call and comes out unchanged.  The stop
    callback and the recording-off callback are different: each calls
    [set_level] on every monitor of the list, enabled or not, the first
    with [LEVEL_MIN], timestamp [0] and no position.  Re-enabling a
    disabled monitor leaves it Idle. *)
Theorem disabled_monitor_frozen_in_dispatch
  (l f : list Q) (ts : Q) (s : Frame) (k : nat) (m : Monitor.t) :
  nth_error (monitors s) k = Some m ->
  Monitor.enabled m = false ->
  (let '(s', fx, _) := on_scan_data l f ts s in
   nth_error (monitors s') k = Some m /\
   forall lvl t loc, ~ In (SetLevel k lvl t loc) fx) /\
  In (SetLevel k (Some LEVEL_MIN) 0 None) (snd (on_stop s)) /\
  (forall now, In (SetLevel k None now None) (snd (on_rec false now s))) /\
  Monitor.state_of (Monitor.set_enabled m true) = Monitor.Idle.
Proof.
  intros Hn Hd. split; [| split; [| split]].
  - unfold on_scan_data.
    destruct (smooth _ _) as [acc |]; [| split; [exact Hn | intros ? ? ? []]].
    cbn [monitors location server set_levels].
    destruct (scan_loop _ f ts (location s) (server s) 0 (monitors s))
      as [[[ms fx] upd] e] eqn:Hloop.
    assert (Hkeep : nth_error ms k = Some m)
      by (eapply scan_loop_disabled; eauto).
    assert (Hquiet : forall lvl t loc, ~ In (SetLevel k lvl t loc) fx).
    { intros lvl t loc Hin.
      destruct (scan_loop_calls _ _ _ _ _ _ _ _ _ _ _ Hloop _ _ _ _ Hin)
        as [j [m0 [v [Hk [Hj [Hen _]]]]]].
      cbn in Hk. subst j. rewrite Hn in Hj. inversion Hj; subst.
      congruence. }
    destruct e as [x |]; [now split |].
    destruct (upd && _); now split.
  - unfold on_stop.
    destruct (receive s); cbn [monitors set_receive];
      pose proof (stop_loop_calls 0 (monitors s) k m Hn) as [Hin _];
      destruct (stop_loop 0 (monitors s)) as [ms fx]; cbn [fst snd] in *.
    + right. exact Hin.
    + exact Hin.
  - intro now. unfold on_rec.
    pose proof (rec_loop_off_calls now 0 (monitors s) k m Hn) as Hin.
    destruct (rec_loop false now 0 (monitors s)) as [ms fx].
    exact Hin.
  - unfold Monitor.state_of, Monitor.set_enabled. cbn. now rewrite Hd.
Qed.

(** C5.  A SCAN_DATA event whose sample has as many bins as the smoothed
    spectrum replaces every smoothed entry [a] by [(a + x) / 2], where
    [x] is the sample's level in that bin; the average is applied once,
    the spectrum keeps its length, and the result is the same whatever
    the monitor list is, also when the monitor loop raises. *)
Theorem scan_data_smooths_once
  (l f : list Q) (ts : Q) (s : Frame) :
  length l = length (levels s) ->
  let s' := fst (fst (on_scan_data l f ts s)) in
  length (levels s') = length (levels s) /\
  (forall i a x,
     nth_error (levels s) i = Some a ->
     nth_error l i = Some x ->
     nth_error (levels s') i = Some ((a + 10 * log10 x) / 2)) /\
  (forall ms,
     levels (fst (fst (on_scan_data l f ts (set_monitors ms s)))) =
     levels s').
Proof.
  intros Hlen s'.
  assert (Hs : levels s' =
               add_halve (levels s) (map (fun x => 10 * log10 x) l)).
  { unfold s'. rewrite on_scan_data_levels, smooth_same_length;
      [reflexivity | now rewrite length_map]. }
  split; [| split].
  - rewrite Hs. apply add_halve_length. now rewrite length_map.
  - intros i a x Ha Hx. rewrite Hs.
    apply add_halve_nth; [exact Ha |].
    rewrite nth_error_map, Hx. reflexivity.
  - intro ms. rewrite Hs, on_scan_data_levels. cbn [levels set_monitors].
    rewrite smooth_same_length; [reflexivity | now rewrite length_map].
Qed.

(** ** What the handlers leave alone *)

Lemma silent_nil : silent [].
Proof. split; [intros r [] | intros []]. Qed.

Lemma silent_app (fx1 fx2 : list Effect) :
  silent fx1 -> silent fx2 -> silent (fx1 ++ fx2).
Proof.
  intros [S1 P1] [S2 P2]. split.
  - intros r Hin. apply in_app_or in Hin. destruct Hin as [H | H].
    + exact (S1 r H).
    + exact (S2 r H).
  - intro Hin. apply in_app_or in Hin. tauto.
Qed.

Lemma silent_cons (e : Effect) (fx : list Effect) :
  (forall r, e <> ServerSend r) -> e <> AlertPlay ->
  silent fx -> silent (e :: fx).
Proof.
  intros He1 He2 [S P]. split.
  - intros r [H | H]; [exact (He1 r H) | exact (S r H)].
  - intros [H | H]; [exact (He2 H) | exact (P H)].
Qed.

Ltac silent_list :=
  repeat (apply silent_cons; [intros ?; discriminate | discriminate |]);
  try apply silent_nil.

Lemma keeps_refl (s : Frame) : keeps s s.
Proof. split; reflexivity. Qed.

Lemma keeps_trans (s1 s2 s3 : Frame) :
  keeps s1 s2 -> keeps s2 s3 -> keeps s1 s3.
Proof. intros [A B] [C D]. split; congruence. Qed.

Lemma start_gps_keeps (s : Frame) :
  keeps s (fst (start_gps s)) /\ silent (snd (start_gps s)).
Proof.
  unfold start_gps. destruct (gps s); [| destruct (gpsEnabled s)];
    cbn [fst snd]; split; try apply keeps_refl; try silent_list.
  split; reflexivity.
Qed.

Lemma stop_gps_keeps (s : Frame) :
  keeps s (fst (stop_gps s)) /\ silent (snd (stop_gps s)).
Proof.
  unfold stop_gps. destruct (gps s); cbn [fst snd]; split;
    try apply keeps_refl; try silent_list.
  split; reflexivity.
Qed.

Lemma restart_gps_keeps (now : Q) (s : Frame) :
  keeps s (fst (restart_gps now s)) /\ silent (snd (restart_gps now s)).
Proof.
  unfold restart_gps. destruct (stop_gps_keeps s) as [K S].
  destruct (stop_gps s) as [s1 fx]. cbn [fst snd] in *. split.
  - destruct K as [K1 K2]. split; cbn; assumption.
  - apply silent_app; [exact S | silent_list].
Qed.

Lemma run_callbacks_keeps (n : nat) (s : Frame) :
  keeps s (fst (run_callbacks n s)) /\ silent (snd (run_callbacks n s)).
Proof.
  revert s. induction n as [| n IH]; intro s; cbn [run_callbacks].
  - split; [apply keeps_refl | apply silent_nil].
  - destruct (start_gps_keeps s) as [K1 S1].
    destruct (start_gps s) as [s1 fx1]. cbn [fst snd] in *.
    destruct (IH s1) as [K2 S2].
    destruct (run_callbacks n s1) as [s2 fx2]. cbn [fst snd] in *.
    split; [eapply keeps_trans; eauto | now apply silent_app].
Qed.

Lemma fire_timers_keeps (now : Q) (s : Frame) :
  keeps s (fst (fire_timers now s)) /\ silent (snd (fire_timers now s)).
Proof.
  unfold fire_timers.
  destruct (run_callbacks_keeps
              (length (filter (expired now) (timers s)))
              (set_timers
                 (filter (fun t => negb (expired now t)) (timers s)) s))
    as [[K1 K2] S].
  split; [split |]; assumption.
Qed.

Lemma stop_loop_silent (k : nat) (ms : list Monitor.t) :
  silent (snd (stop_loop k ms)).
Proof.
  split; [apply stop_loop_no_send |].
  revert k. induction ms as [| a ms IH]; intro k; cbn [stop_loop].
  - intros [].
  - specialize (IH (S k)). destruct (stop_loop (S k) ms) as [r fx].
    cbn [fst snd] in *. intros [H | H]; [discriminate | contradiction].
Qed.

Lemma rec_loop_silent (rec : bool) (ts : Q) (k : nat)
  (ms : list Monitor.t) :
  silent (snd (rec_loop rec ts k ms)).
Proof.
  split; [apply rec_loop_no_send |].
  revert k. induction ms as [| a ms IH]; intro k; cbn [rec_loop].
  - intros [].
  - specialize (IH (S k)). destruct (rec_loop rec ts (S k) ms) as [r fx].
    destruct rec; cbn [fst snd] in *; [exact IH |].
    intros [H | H]; [discriminate | contradiction].
Qed.

Lemma on_start_keeps (s : Frame) : keeps s (on_start s).
Proof. unfold on_start. destruct (receive s); split; reflexivity. Qed.

Lemma on_rec_keeps (rec : bool) (now : Q) (s : Frame) :
  keeps s (fst (on_rec rec now s)) /\ silent (snd (on_rec rec now s)).
Proof.
  unfold on_rec.
  set (s1 := if rec then on_start s else s).
  assert (K : keeps s s1)
    by (unfold s1; destruct rec; [apply on_start_keeps | apply keeps_refl]).
  pose proof (rec_loop_silent rec now 0 (monitors s1)) as S.
  destruct (rec_loop rec now 0 (monitors s1)) as [ms fx].
  cbn [fst snd] in *. split; [| exact S].
  destruct K as [K1 K2]. split; cbn; assumption.
Qed.

Lemma on_stop_keeps (s : Frame) :
  keeps s (fst (on_stop s)) /\ silent (snd (on_stop s)).
Proof.
  unfold on_stop.
  destruct (receive s); cbn [monitors set_receive];
    pose proof (stop_loop_silent 0 (monitors s)) as S;
    destruct (stop_loop 0 (monitors s)) as [ms fx]; cbn [fst snd] in *;
    (split; [split; reflexivity |]).
  - apply silent_cons; [intros ?; discriminate | discriminate | exact S].
  - exact S.
Qed.

Lemma open_keeps (filename : string) (s : Frame) :
  keeps s (fst (open filename s)) /\ silent (snd (open filename s)).
Proof.
  unfold open.
  destruct (load_recordings filename) as [[[[freq gain] cal] loaded] |];
    cbn [fst snd]; split; try apply keeps_refl; try silent_list.
  split; reflexivity.
Qed.

Lemma on_open_keeps (ok : bool) (choice : option string) (s : Frame) :
  keeps s (fst (on_open ok choice s)) /\
  silent (snd (on_open ok choice s)).
Proof.
  unfold on_open.
  destruct (negb (isSaved s) && negb ok); cbn [fst snd];
    [split; [apply keeps_refl | silent_list] |].
  assert (W : silent (if negb (isSaved s)
                      then [MessageBox "Not saved, continue?"] else []))
    by (destruct (negb (isSaved s)); silent_list).
  destruct choice as [path |]; cbn [fst snd];
    [| split; [apply keeps_refl | exact W]].
  destruct (open_keeps path s) as [[K1 K2] S].
  destruct (open path s) as [s1 fx]. cbn [fst snd] in *.
  split; [split; cbn; assumption | now apply silent_app].
Qed.

Lemma save_keeps (prompt : bool) (choice : option string) (s : Frame) :
  keeps s (fst (save prompt choice s)) /\
  silent (snd (save prompt choice s)).
Proof.
  unfold save.
  destruct (prompt || negb (is_some (filename s)));
    [destruct choice | destruct (filename s)]; cbn [fst snd];
    split; try apply keeps_refl; try silent_list; split; reflexivity.
Qed.

Lemma on_clear_keeps (ok : bool) (cleared : list Monitor.t) (s : Frame) :
  keeps s (fst (on_clear ok cleared s)) /\
  silent (snd (on_clear ok cleared s)).
Proof.
  unfold on_clear. destruct ok; cbn [fst snd];
    split; try apply keeps_refl; try silent_list; split; reflexivity.
Qed.

Lemma on_gps_keeps (ok en : bool) (s : Frame) :
  keeps s (fst (on_gps ok en s)) /\ silent (snd (on_gps ok en s)).
Proof.
  unfold on_gps. destruct ok; [| split; [apply keeps_refl | apply silent_nil]].
  destruct (stop_gps_keeps (set_gpsEnabled en s)) as [K1 S1].
  destruct (stop_gps (set_gpsEnabled en s)) as [s1 fx1].
  destruct (start_gps_keeps s1) as [K2 S2].
  destruct (start_gps s1) as [s2 fx2]. cbn [fst snd] in *.
  split; [| now apply silent_app].
  eapply keeps_trans; [| exact K2].
  destruct K1 as [A B]. split; cbn in *; assumption.
Qed.

Lemma scan_loop_no_play lv f ts loc srv k ms ms' fx upd e :
  scan_loop lv f ts loc srv k ms = (ms', fx, upd, e) ->
  ~ In AlertPlay fx.
Proof.
  revert k ms' fx upd e.
  induction ms as [| a ms IH]; intros k ms' fx upd e H Hin.
  - inversion H; subst. contradiction.
  - scan_step H.
    + cbn in Hin. destruct Hin as [Hx | Hin]; [discriminate |].
      apply in_app_or in Hin. destruct Hin as [Hin | Hin].
      * destruct sg as [sg |]; [| contradiction].
        destruct (is_some (sig_end sg) && is_some srv); [| contradiction].
        destruct Hin as [Hx | []]. discriminate.
      * eapply IH; eauto.
    + contradiction.
    + eapply IH; eauto.
Qed.

Lemma on_scan_data_keeps (l f : list Q) (ts : Q) (s : Frame) :
  keeps s (fst (fst (on_scan_data l f ts s))) /\
  ~ In AlertPlay (snd (fst (on_scan_data l f ts s))) /\
  (server s = None ->
   forall r, ~ In (ServerSend r) (snd (fst (on_scan_data l f ts s)))).
Proof.
  unfold on_scan_data.
  destruct (smooth _ _) as [acc |]; cbn [fst snd];
    [| split; [apply keeps_refl | split; [intros [] | intros _ r []]]].
  cbn [monitors location server set_levels].
  destruct (scan_loop _ f ts (location s) (server s) 0 (monitors s))
    as [[[ms fx] upd] e] eqn:Hloop.
  assert (P : ~ In AlertPlay fx) by (eapply scan_loop_no_play; eauto).
  assert (S : server s = None -> forall r, ~ In (ServerSend r) fx).
  { intros Hs. rewrite Hs in Hloop. eapply scan_loop_no_send; eauto. }
  destruct e as [x |]; cbn [fst snd].
  - split; [split; reflexivity | split; assumption].
  - split; [| split; assumption].
    destruct (upd && _); split; reflexivity.
Qed.

(** One operation of the control loop: only SERVER_ERROR writes the
    server handle (to [None]), only MON_ALERT writes the last-alert time
    and plays the alert, and with no server handle nothing is sent. *)
Lemma step_server (o : Op) (s : Frame) :
  server s = None ->
  server (fst (fst (step o s))) = None /\
  forall r, ~ In (ServerSend r) (snd (fst (step o s))).
Proof.
  intro Hs.
  assert (G : forall (s' : Frame) (fx : list Effect),
             keeps s s' /\ silent fx ->
             server s' = None /\ forall r, ~ In (ServerSend r) fx).
  { intros s' fx [[K _] [S _]]. split; [congruence | exact S]. }
  destruct o as [e now | now | freq | | rec now | | | tb | k | k m
                | ok choice | prompt choice | ok cleared | ok en];
    cbn [step].
  - destruct e as [msg | l f ts | msg | msg | msg | msg | loc | |];
      cbn [on_event on_scan_error on_server_error].
    + cbn. split; [exact Hs | intros r [H | []]; discriminate].
    + destruct (on_scan_data_keeps l f ts s) as [[K _] [_ S]].
      split; [congruence | exact (S Hs)].
    + cbn. split; [reflexivity | intros r [H | []]; discriminate].
    + pose proof (restart_gps_keeps now s) as R.
      destruct (restart_gps now s) as [s1 fx]. cbn [fst snd] in *.
      apply G. destruct R as [K S]. split; [exact K |].
      apply silent_cons; [intros ?; discriminate | discriminate | exact S].
    + cbn. split; [exact Hs | intros r [H | []]; discriminate].
    + pose proof (restart_gps_keeps now s) as R.
      destruct (restart_gps now s) as [s1 fx]. cbn [fst snd] in *.
      apply G. destruct R as [K S]. split; [exact K |].
      apply silent_cons; [intros ?; discriminate | discriminate | exact S].
    + cbn. split; [exact Hs | intros r [H | []]; discriminate].
    + destruct (Qle_bool ALERT_LENGTH (now - alertLast s)); cbn.
      * split; [exact Hs | intros r [H | []]; discriminate].
      * split; [exact Hs | intros r []].
    + cbn. split; [exact Hs | intros r []].
  - pose proof (fire_timers_keeps now s) as R.
    destruct (fire_timers now s) as [s1 fx]. now apply G.
  - cbn. split; [| intros r []].
    unfold on_freq. cbn. destruct (receive s); exact Hs.
  - cbn. split; [| intros r []].
    destruct (on_start_keeps s) as [K _]. congruence.
  - pose proof (on_rec_keeps rec now s) as R.
    destruct (on_rec rec now s) as [s1 fx]. now apply G.
  - pose proof (on_stop_keeps s) as R.
    destruct (on_stop s) as [s1 fx]. now apply G.
  - cbn. split; [exact Hs | intros r []].
  - cbn. split; [exact Hs | intros r []].
  - cbn. split; [exact Hs | intros r []].
  - cbn. split; [exact Hs | intros r []].
  - pose proof (on_open_keeps ok choice s) as R.
    destruct (on_open ok choice s) as [s1 fx]. now apply G.
  - pose proof (save_keeps prompt choice s) as R.
    destruct (save prompt choice s) as [s1 fx]. now apply G.
  - pose proof (on_clear_keeps ok cleared s) as R.
    destruct (on_clear ok cleared s) as [s1 fx]. now apply G.
  - pose proof (on_gps_keeps ok en s) as R.
    destruct (on_gps ok en s) as [s1 fx]. now apply G.
Qed.

Lemma step_alert (o : Op) (s : Frame) :
  is_alert o = false ->
  alertLast (fst (fst (step o s))) = alertLast s /\
  ~ In AlertPlay (snd (fst (step o s))).
Proof.
  intro Ho.
  assert (G : forall (s' : Frame) (fx : list Effect),
             keeps s s' /\ silent fx ->
             alertLast s' = alertLast s /\ ~ In AlertPlay fx).
  { intros s' fx [[_ K] [_ S]]. split; assumption. }
  destruct o as [e now | now | freq | | rec now | | | tb | k | k m
                | ok choice | prompt choice | ok cleared | ok en];
    cbn [step].
  - destruct e as [msg | l f ts | msg | msg | msg | msg | loc | |];
      cbn [on_event on_scan_error on_server_error]; try discriminate.
    + cbn. split; [reflexivity | intros [H | []]; discriminate].
    + destruct (on_scan_data_keeps l f ts s) as [[_ K] [P _]].
      split; assumption.
    + cbn. split; [reflexivity | intros [H | []]; discriminate].
    + pose proof (restart_gps_keeps now s) as R.
      destruct (restart_gps now s) as [s1 fx]. cbn [fst snd] in *.
      apply G. destruct R as [K S]. split; [exact K |].
      apply silent_cons; [intros ?; discriminate | discriminate | exact S].
    + cbn. split; [reflexivity | intros [H | []]; discriminate].
    + pose proof (restart_gps_keeps now s) as R.
      destruct (restart_gps now s) as [s1 fx]. cbn [fst snd] in *.
      apply G. destruct R as [K S]. split; [exact K |].
      apply silent_cons; [intros ?; discriminate | discriminate | exact S].
    + cbn. split; [reflexivity | intros [H | []]; discriminate].
    + cbn. split; [reflexivity | intros []].
  - pose proof (fire_timers_keeps now s) as R.
    destruct (fire_timers now s) as [s1 fx]. now apply G.
  - cbn. split; [| intros []].
    unfold on_freq. cbn. destruct (receive s); reflexivity.
  - cbn. split; [| intros []].
    destruct (on_start_keeps s) as [_ K]. exact K.
  - pose proof (on_rec_keeps rec now s) as R.
    destruct (on_rec rec now s) as [s1 fx]. now apply G.
  - pose proof (on_stop_keeps s) as R.
    destruct (on_stop s) as [s1 fx]. now apply G.
  - cbn. split; [reflexivity | intros []].
  - cbn. split; [reflexivity | intros []].
  - cbn. split; [reflexivity | intros []].
  - cbn. split; [reflexivity | intros []].
  - pose proof (on_open_keeps ok choice s) as R.
    destruct (on_open ok choice s) as [s1 fx]. now apply G.
  - pose proof (save_keeps prompt choice s) as R.
    destruct (save prompt choice s) as [s1 fx]. now apply G.
  - pose proof (on_clear_keeps ok cleared s) as R.
    destruct (on_clear ok cleared s) as [s1 fx]. now apply G.
  - pose proof (on_gps_keeps ok en s) as R.
    destruct (on_gps ok en s) as [s1 fx]. now apply G.
Qed.

Lemma run_server (ops : list Op) (s : Frame) :
  server s = None ->
  server (fst (run ops s)) = None /\
  forall r, ~ In (ServerSend r) (snd (run ops s)).
Proof.
  revert s. induction ops as [| o ops IH]; intros s Hs; cbn [run].
  - split; [exact Hs | intros r []].
  - destruct (step_server o s Hs) as [H1 S1].
    destruct (step o s) as [[s1 fx1] x]. cbn [fst snd] in *.
    destruct (IH s1 H1) as [H2 S2].
    destruct (run ops s1) as [s2 fx2]. cbn [fst snd] in *.
    split; [exact H2 |].
    intros r Hin. apply in_app_or in Hin.
    destruct Hin as [H | H]; [exact (S1 r H) | exact (S2 r H)].
Qed.

Lemma run_alert (ops : list Op) (s : Frame) :
  forallb (fun o => negb (is_alert o)) ops = true ->
  alertLast (fst (run ops s)) = alertLast s /\
  ~ In AlertPlay (snd (run ops s)).
Proof.
  revert s. induction ops as [| o ops IH]; intros s Hops; cbn [run].
  - split; [reflexivity | intros []].
  - cbn in Hops. apply andb_true_iff in Hops. destruct Hops as [Ho Hops].
    apply negb_true_iff in Ho.
    destruct (step_alert o s Ho) as [H1 S1].
    destruct (step o s) as [[s1 fx1] x]. cbn [fst snd] in *.
    destruct (IH s1 Hops) as [H2 S2].
    destruct (run ops s1) as [s2 fx2]. cbn [fst snd] in *.
    split; [congruence |].
    intro Hin. apply in_app_or in Hin. tauto.
Qed.

(** ** The alert gate *)

Lemma alerts_app (fx1 fx2 : list Effect) :
  alerts (fx1 ++ fx2) = (alerts fx1 + alerts fx2)%nat.
Proof. unfold alerts. now rewrite filter_app, length_app. Qed.

Lemma alerts_none (fx : list Effect) :
  ~ In AlertPlay fx -> alerts fx = 0%nat.
Proof.
  unfold alerts. induction fx as [| e fx IH]; intro H; [reflexivity |].
  cbn. destruct e; cbn;
    try (apply IH; intro Hin; apply H; now right).
  exfalso. apply H. now left.
Qed.

Lemma run_app (ops1 ops2 : list Op) (s : Frame) :
  run (ops1 ++ ops2) s =
    (fst (run ops2 (fst (run ops1 s))),
     snd (run ops1 s) ++ snd (run ops2 (fst (run ops1 s)))).
Proof.
  revert s. induction ops1 as [| o ops1 IH]; intro s; cbn [run app].
  - cbn. now destruct (run ops2 s).
  - destruct (step o s) as [[s1 fx1] x]. rewrite IH.
    destruct (run ops1 s1) as [s2 fx2]. cbn [fst snd].
    now rewrite app_assoc.
Qed.

(** The decision of the MON_ALERT branch. *)
Lemma mon_alert_fires (now : Q) (s : Frame) :
  ALERT_LENGTH <= now - alertLast s ->
  on_event MON_ALERT now s = (set_alertLast now s, [AlertPlay], None).
Proof.
  intro H. cbn [on_event]. apply Qle_bool_iff in H. now rewrite H.
Qed.

Lemma mon_alert_held (now : Q) (s : Frame) :
  now - alertLast s < ALERT_LENGTH ->
  on_event MON_ALERT now s = (s, [], None).
Proof.
  intro H. cbn [on_event].
  destruct (Qle_bool ALERT_LENGTH (now - alertLast s)) eqn:E;
    [| reflexivity].
  apply Qle_bool_iff in E. lra.
Qed.

(** C6, as amended.  Two MON_ALERT events that arrive less than
    [ALERT_LENGTH] seconds apart, with any other operations in between,
    play the alert at most once, and exactly once when the first of
    them arrives at least [ALERT_LENGTH] seconds after the last played
    alert.  An alert is played exactly when at least [ALERT_LENGTH]
    seconds have passed since the one shared last-alert time, and that
    time is set to the current time in the same step, and only then. *)
Theorem alert_gate_debounces
  (s : Frame) (now1 now2 : Q) (ops : list Op) :
  forallb (fun o => negb (is_alert o)) ops = true ->
  now2 - now1 < ALERT_LENGTH ->
  let fx := snd (run (Ev MON_ALERT now1 :: ops ++ [Ev MON_ALERT now2]) s) in
  (alerts fx <= 1)%nat /\
  (ALERT_LENGTH <= now1 - alertLast s -> alerts fx = 1%nat) /\
  (forall (now : Q) (s0 : Frame),
     let '(s', fx0, _) := on_event MON_ALERT now s0 in
     (In AlertPlay fx0 <-> ALERT_LENGTH <= now - alertLast s0) /\
     (In AlertPlay fx0 -> alertLast s' = now) /\
     (~ In AlertPlay fx0 -> s' = s0)).
Proof.
  intros Hops Hnear fx.
  assert (Hgate : forall (now : Q) (s0 : Frame),
    let '(s', fx0, _) := on_event MON_ALERT now s0 in
    (In AlertPlay fx0 <-> ALERT_LENGTH <= now - alertLast s0) /\
    (In AlertPlay fx0 -> alertLast s' = now) /\
    (~ In AlertPlay fx0 -> s' = s0)).
  { intros now s0.
    destruct (Qlt_le_dec (now - alertLast s0) ALERT_LENGTH) as [Hlt | Hge].
    - rewrite (mon_alert_held _ _ Hlt).
      split; [split; [intros [] | intro; lra] |].
      split; [intros [] | reflexivity].
    - rewrite (mon_alert_fires _ _ Hge).
      split; [split; [intros _; exact Hge | intros _; now left] |].
      split; [reflexivity |].
      intro H. exfalso. apply H. now left. }
  assert (Hbody :
    (alerts fx <= 1)%nat /\
    (ALERT_LENGTH <= now1 - alertLast s -> alerts fx = 1%nat)).
  { unfold fx. cbn [run step].
    destruct (Qlt_le_dec (now1 - alertLast s) ALERT_LENGTH) as [Hlt | Hge].
    - rewrite (mon_alert_held _ _ Hlt). rewrite run_app. cbn [fst snd app].
      destruct (run_alert ops s Hops) as [_ Hquiet].
      rewrite alerts_app, (alerts_none _ Hquiet).
      split; [| intro; lra].
      cbn [run step].
      destruct (on_event MON_ALERT now2 (fst (run ops s)))
        as [[s3 fx3] x] eqn:E.
      cbn [fst snd]. rewrite app_nil_r.
      cbn [on_event] in E.
      destruct (Qle_bool _ _) in E; inversion E; subst; cbn; lia.
    - rewrite (mon_alert_fires _ _ Hge). rewrite run_app. cbn [fst snd app].
      destruct (run_alert ops (set_alertLast now1 s) Hops) as [Hlast Hquiet].
      cbn [alertLast set_alertLast] in Hlast.
      assert (Hheld : now2 - alertLast (fst (run ops (set_alertLast now1 s)))
                      < ALERT_LENGTH) by (rewrite Hlast; exact Hnear).
      cbn [run step]. rewrite (mon_alert_held _ _ Hheld). cbn [fst snd].
      change (AlertPlay :: ?x) with ([AlertPlay] ++ x).
      rewrite !alerts_app, (alerts_none _ Hquiet). cbn. split; [lia | auto]. }
  destruct Hbody as [H1 H2]. split; [exact H1 | split; [exact H2 |]].
  exact Hgate.
Qed.

(** C10.  [__init__] sets the last-alert time to [0], no operation other
    than MON_ALERT writes it, and so the first MON_ALERT of a session,
    whatever came before it, plays the alert and records its time,
    provided the clock reads at least [ALERT_LENGTH]. *)
Theorem first_alert_always_fires
  (freq gain cal : Q) (gps_on : bool) (ops : list Op) (now : Q) :
  forallb (fun o => negb (is_alert o)) ops = true ->
  ALERT_LENGTH <= now ->
  let s0 := fst (init freq gain cal gps_on) in
  let s := fst (run ops s0) in
  alertLast s0 = 0 /\
  ~ In AlertPlay (snd (run ops s0)) /\
  on_event MON_ALERT now s = (set_alertLast now s, [AlertPlay], None).
Proof.
  intros Hops Hnow s0 s.
  assert (H0 : alertLast s0 = 0).
  { unfold s0, init.
    match goal with
    | |- alertLast (fst (start_gps ?x)) = _ =>
        destruct (start_gps_keeps x) as [[_ K] _]; rewrite K
    end.
    unfold on_freq. cbn. reflexivity. }
  destruct (run_alert ops s0 Hops) as [Hlast Hquiet].
  split; [exact H0 | split; [exact Hquiet |]].
  apply mon_alert_fires. unfold s. rewrite Hlast, H0. lra.
Qed.

(** ** The exporter after a transport failure *)

(** C7.  SERVER_ERROR clears the server handle.  From then on, whatever
    operations follow, the handle stays cleared and nothing is handed to
    the server.  A dispatch without the handle raises what the same
    dispatch with the handle raises and leaves the same monitors behind,
    and every record the live server would have been sent holds a
    signal that is in the history of a monitor of that frequency. *)
Theorem server_dead_after_error
  (msg : string) (s : Frame) (ops : list Op) :
  let dead := fst (on_server_error msg s) in
  server dead = None /\
  server (fst (run ops dead)) = None /\
  (forall r, ~ In (ServerSend r) (snd (run ops dead))) /\
  (forall (l f : list Q) (ts : Q) (s0 : Frame),
     server s0 = None ->
     let '(s1, fx1, e1) := on_scan_data l f ts s0 in
     let '(s2, fx2, e2) :=
       on_scan_data l f ts (set_server (Some ServerHandle) s0) in
     (forall r, ~ In (ServerSend r) fx1) /\
     e1 = e2 /\
     monitors s1 = monitors s2 /\
     (forall r,
        In (ServerSend r) fx2 ->
        exists k m,
          nth_error (monitors s1) k = Some m /\
          Monitor.frequency m = rec_frequency r /\
          In (rec_signal r) (Monitor.signals m))).
Proof.
  intro dead.
  assert (Hd : server dead = None) by reflexivity.
  destruct (run_server ops dead Hd) as [H1 H2].
  split; [exact Hd | split; [exact H1 | split; [exact H2 |]]].
  intros l f ts s0 Hs.
  unfold on_scan_data. cbn [levels set_server].
  destruct (smooth _ _) as [acc |].
  2:{ split; [intros r [] |]. split; [reflexivity |].
      split; [reflexivity | intros r []]. }
  cbn [monitors location server set_levels set_server].
  rewrite Hs.
  pose proof (scan_loop_server_indep
                (map (fun x => 10 * log10 x) l) f ts (location s0)
                None (Some ServerHandle) 0 (monitors s0)) as Hind.
  destruct (scan_loop _ f ts (location s0) None 0 (monitors s0))
    as [[[ms1 fx1] u1] e1] eqn:L1.
  destruct (scan_loop _ f ts (location s0) (Some ServerHandle) 0
              (monitors s0)) as [[[ms2 fx2] u2] e2] eqn:L2.
  destruct Hind as [Hm [Hu He]]. subst ms2 u2 e2.
  assert (Hsent : forall r,
            In (ServerSend r) fx2 ->
            exists k m,
              nth_error ms1 k = Some m /\
              Monitor.frequency m = rec_frequency r /\
              In (rec_signal r) (Monitor.signals m))
    by (eapply scan_loop_sent_recorded; eauto).
  assert (Hquiet : forall r, ~ In (ServerSend r) fx1)
    by (eapply scan_loop_no_send; eauto).
  destruct e1 as [x |].
  - cbn [monitors set_monitors]. auto.
  - cbn [isSaved set_monitors set_levels set_server].
    destruct (u1 && isSaved s0); cbn [monitors set_monitors set_isSaved];
      auto.
Qed.

(** ** Loading a corrupt file *)

(** C8.  When [load_recordings] rejects the file, [open] shows the
    message naming the file and returns with the frame exactly as it
    was: monitor list, file name, toolbar frequency, gain and
    calibration, saved flag and every other field. *)
Theorem open_corrupt_leaves_state (path : string) (s : Frame) :
  load_recordings path = None ->
  open path s = (s, [MessageBox (corrupt_msg path)]) /\
  monitors (fst (open path s)) = monitors s /\
  filename (fst (open path s)) = filename s /\
  toolbar (fst (open path s)) = toolbar s /\
  isSaved (fst (open path s)) = isSaved s.
Proof.
  intro H. unfold open. rewrite H. cbn. auto.
Qed.

(** X20.  The menu entry around [open] is another matter: [__on_open]
    sets the saved flag after [open] returns, also when the load failed.
    Choosing a corrupt file leaves monitors, file name and toolbar as they
    were and marks the frame saved. *)
Lemma on_open_corrupt_marks_saved (ok : bool) (path : string) (s : Frame) :
  load_recordings path = None ->
  isSaved s = true \/ ok = true ->
  isSaved (fst (on_open ok (Some path) s)) = true /\
  monitors (fst (on_open ok (Some path) s)) = monitors s /\
  filename (fst (on_open ok (Some path) s)) = filename s /\
  toolbar (fst (on_open ok (Some path) s)) = toolbar s.
Proof.
  intros Hload Hgo. unfold on_open.
  assert (Hc : negb (isSaved s) && negb ok = false)
    by (destruct Hgo as [-> | ->]; [reflexivity | apply andb_false_r]).
  rewrite Hc. unfold open. rewrite Hload. cbn. auto.
Qed.

(** ** The position source *)

Lemma same_gps_inv (s s' : Frame) :
  same_gps s s' -> gps_inv s -> gps_inv s'.
Proof. unfold gps_inv. intros [A B] H. now rewrite A, B. Qed.

Lemma start_gps_inv (s : Frame) :
  gps_inv s -> gps_inv (fst (start_gps s)).
Proof.
  unfold gps_inv, start_gps. intro H.
  destruct (gps s) eqn:G; cbn [fst]; [now rewrite G |].
  destruct (gpsEnabled s); cbn; [now rewrite H | now rewrite G].
Qed.

Lemma stop_gps_inv (s : Frame) :
  gps_inv s ->
  gps_inv (fst (stop_gps s)) /\
  gps (fst (stop_gps s)) = None /\ running (fst (stop_gps s)) = [] /\
  timers (fst (stop_gps s)) = timers s /\
  gpsEnabled (fst (stop_gps s)) = gpsEnabled s /\
  (forall i, ~ In (GpsCreate i) (snd (stop_gps s))).
Proof.
  unfold gps_inv, stop_gps. intro H.
  destruct (gps s) as [g |] eqn:G; cbn.
  - rewrite H. cbn. rewrite Nat.eqb_refl. cbn.
    repeat split. intros i [Hx | []]. discriminate.
  - rewrite G. repeat split; auto.
Qed.

Lemma run_callbacks_inv (n : nat) (s : Frame) :
  gps_inv s ->
  gps_inv (fst (run_callbacks n s)) /\
  timers (fst (run_callbacks n s)) = timers s.
Proof.
  revert s. induction n as [| n IH]; intros s H; cbn [run_callbacks].
  - now split.
  - pose proof (start_gps_inv s H) as H1.
    assert (T1 : timers (fst (start_gps s)) = timers s).
    { unfold start_gps. destruct (gps s); [reflexivity |].
      destruct (gpsEnabled s); reflexivity. }
    destruct (start_gps s) as [s1 fx1]. cbn [fst] in *.
    destruct (IH s1 H1) as [H2 T2].
    destruct (run_callbacks n s1) as [s2 fx2]. cbn [fst] in *.
    split; [exact H2 | congruence].
Qed.

Lemma fire_timers_inv (now : Q) (s : Frame) :
  gps_inv s -> gps_inv (fst (fire_timers now s)).
Proof.
  intro H. unfold fire_timers. apply run_callbacks_inv. exact H.
Qed.

Lemma restart_gps_inv (now : Q) (s : Frame) :
  gps_inv s -> gps_inv (fst (restart_gps now s)).
Proof.
  intro H. unfold restart_gps.
  destruct (stop_gps_inv s H) as [H1 _].
  destruct (stop_gps s) as [s1 fx]. exact H1.
Qed.

Lemma on_scan_data_same_gps (l f : list Q) (ts : Q) (s : Frame) :
  same_gps s (fst (fst (on_scan_data l f ts s))).
Proof.
  unfold on_scan_data.
  destruct (smooth _ _) as [acc |]; [| split; reflexivity].
  destruct (scan_loop _ _ _ _ _ _ _) as [[[ms fx] upd] e].
  destruct e; [split; reflexivity |].
  destruct (upd && _); split; reflexivity.
Qed.

Lemma on_rec_same_gps (rec : bool) (now : Q) (s : Frame) :
  same_gps s (fst (on_rec rec now s)).
Proof.
  unfold on_rec, on_start.
  destruct rec; [destruct (receive s) |];
    destruct (rec_loop _ _ _ _) as [ms fx]; split; reflexivity.
Qed.

Lemma on_stop_same_gps (s : Frame) : same_gps s (fst (on_stop s)).
Proof.
  unfold on_stop.
  destruct (receive s); destruct (stop_loop _ _) as [ms fx];
    split; reflexivity.
Qed.

Lemma on_open_same_gps (ok : bool) (choice : option string) (s : Frame) :
  same_gps s (fst (on_open ok choice s)).
Proof.
  unfold on_open, open.
  destruct (negb (isSaved s) && negb ok); [split; reflexivity |].
  destruct choice as [path |]; [| split; reflexivity].
  destruct (load_recordings path) as [[[[freq gain] cal] loaded] |];
    split; reflexivity.
Qed.

Lemma save_same_gps (prompt : bool) (choice : option string) (s : Frame) :
  same_gps s (fst (save prompt choice s)).
Proof.
  unfold save.
  destruct (prompt || negb (is_some (filename s)));
    [destruct choice | destruct (filename s)]; split; reflexivity.
Qed.

Lemma on_clear_same_gps (ok : bool) (cleared : list Monitor.t)
  (s : Frame) :
  same_gps s (fst (on_clear ok cleared s)).
Proof. unfold on_clear. destruct ok; split; reflexivity. Qed.

Lemma on_gps_inv (ok en : bool) (s : Frame) :
  gps_inv s -> gps_inv (fst (on_gps ok en s)).
Proof.
  intro H. unfold on_gps. destruct ok; [| exact H].
  assert (H0 : gps_inv (set_gpsEnabled en s)) by exact H.
  destruct (stop_gps_inv _ H0) as [H1 _].
  destruct (stop_gps (set_gpsEnabled en s)) as [s1 fx1]. cbn [fst] in H1.
  pose proof (start_gps_inv s1 H1) as H2.
  destruct (start_gps s1) as [s2 fx2]. exact H2.
Qed.

Lemma step_gps_inv (o : Op) (s : Frame) :
  gps_inv s -> gps_inv (fst (fst (step o s))).
Proof.
  intro H.
  destruct o as [e now | now | freq | | rec now | | | tb | k | k m
                | ok choice | prompt choice | ok cleared | ok en];
    cbn [step].
  - destruct e as [msg | l f ts | msg | msg | msg | msg | loc | |];
      cbn [on_event on_scan_error on_server_error]; try exact H.
    + eapply same_gps_inv; [apply on_scan_data_same_gps | exact H].
    + pose proof (restart_gps_inv now s H) as R.
      destruct (restart_gps now s) as [s1 fx]. exact R.
    + pose proof (restart_gps_inv now s H) as R.
      destruct (restart_gps now s) as [s1 fx]. exact R.
    + destruct (Qle_bool _ _); exact H.
  - pose proof (fire_timers_inv now s H) as R.
    destruct (fire_timers now s) as [s1 fx]. exact R.
  - cbn. unfold on_freq. cbn. destruct (receive s); exact H.
  - cbn. unfold on_start. destruct (receive s); exact H.
  - pose proof (on_rec_same_gps rec now s) as R.
    destruct (on_rec rec now s) as [s1 fx].
    eapply same_gps_inv; [exact R | exact H].
  - pose proof (on_stop_same_gps s) as R.
    destruct (on_stop s) as [s1 fx].
    eapply same_gps_inv; [exact R | exact H].
  - exact H.
  - exact H.
  - exact H.
  - exact H.
  - pose proof (on_open_same_gps ok choice s) as R.
    destruct (on_open ok choice s) as [s1 fx].
    eapply same_gps_inv; [exact R | exact H].
  - pose proof (save_same_gps prompt choice s) as R.
    destruct (save prompt choice s) as [s1 fx].
    eapply same_gps_inv; [exact R | exact H].
  - pose proof (on_clear_same_gps ok cleared s) as R.
    destruct (on_clear ok cleared s) as [s1 fx].
    eapply same_gps_inv; [exact R | exact H].
  - pose proof (on_gps_inv ok en s H) as R.
    destruct (on_gps ok en s) as [s1 fx]. exact R.
Qed.

Lemma run_gps_inv (ops : list Op) (s : Frame) :
  gps_inv s -> gps_inv (fst (run ops s)).
Proof.
  revert s. induction ops as [| o ops IH]; intros s H; cbn [run].
  - exact H.
  - pose proof (step_gps_inv o s H) as H1.
    destruct (step o s) as [[s1 fx1] x]. cbn [fst] in H1.
    specialize (IH s1 H1).
    destruct (run ops s1) as [s2 fx2]. exact IH.
Qed.

Lemma init_gps_inv (freq gain cal : Q) (gps_on : bool) :
  gps_inv (fst (init freq gain cal gps_on)).
Proof.
  unfold init. apply start_gps_inv. unfold gps_inv, on_freq. cbn.
  reflexivity.
Qed.

Lemma filter_none {A : Type} (p : A -> bool) (l : list A) :
  (forall x, In x l -> p x = false) -> filter p l = [].
Proof.
  induction l as [| a l IH]; intro H; [reflexivity |].
  cbn. rewrite (H a (or_introl eq_refl)). apply IH.
  intros x Hx. apply H. now right.
Qed.

Lemma filter_all {A : Type} (p : A -> bool) (l : list A) :
  (forall x, In x l -> p x = true) -> filter p l = l.
Proof.
  induction l as [| a l IH]; intro H; [reflexivity |].
  cbn. rewrite (H a (or_introl eq_refl)). f_equal. apply IH.
  intros x Hx. apply H. now right.
Qed.

Lemma set_timers_same (s : Frame) : set_timers (timers s) s = s.
Proof. now destruct s. Qed.

Lemma retry_timer_expired (now t : Q) :
  expired t (mkTimer now (GPS_RETRY * 1000)) = true <->
  now + GPS_RETRY <= t.
Proof.
  unfold expired. cbn [armed_at delay_ms]. rewrite Qle_bool_iff.
  split; intro H; lra.
Qed.

Lemma retry_timer_pending (now t : Q) :
  t < now + GPS_RETRY ->
  expired t (mkTimer now (GPS_RETRY * 1000)) = false.
Proof.
  intro H.
  destruct (expired t (mkTimer now (GPS_RETRY * 1000))) eqn:E;
    [| reflexivity].
  apply retry_timer_expired in E. lra.
Qed.

(** Once an instance is held, further callbacks start nothing. *)
Lemma run_callbacks_held (n : nat) (s : Frame) (g : nat) :
  gps s = Some g -> run_callbacks n s = (s, []).
Proof.
  intro G. induction n as [| n IH]; cbn [run_callbacks]; [reflexivity |].
  unfold start_gps. rewrite G, IH. reflexivity.
Qed.

(** What [__restart_gps] leaves behind. *)
Lemma restart_gps_result (now : Q) (s : Frame) :
  gps_inv s ->
  let s' := fst (restart_gps now s) in
  gps s' = None /\ running s' = [] /\
  timers s' = timers s ++ [mkTimer now (GPS_RETRY * 1000)] /\
  gpsEnabled s' = gpsEnabled s /\
  (forall i, ~ In (GpsCreate i) (snd (restart_gps now s))) /\
  In (CallLater (GPS_RETRY * 1000)) (snd (restart_gps now s)).
Proof.
  intro H. unfold restart_gps.
  destruct (stop_gps_inv s H) as [_ [G [R [T [E C]]]]].
  destruct (stop_gps s) as [s1 fx]. cbn [fst snd] in *.
  repeat split; cbn; try assumption.
  - now rewrite T.
  - intros i Hin. apply in_app_or in Hin.
    destruct Hin as [Hin | [Hx | []]]; [exact (C i Hin) | discriminate].
  - apply in_or_app. right. now left.
Qed.

(** C9, as amended.  In a running session, a GPS_ERROR or GPS_TIMEOUT
    event shows its message, stops the position source (no instance is
    left running, none is created) and arms one call-later timer of
    [GPS_RETRY * 1000] milliseconds for [__start_gps].  That timer is not
    expired before [GPS_RETRY] seconds have passed, so nothing is started
    before then unless a timer armed by an earlier failure is due; from
    then on a timer tick starts one instance (when GPS is enabled) and
    removes every expired timer, so the callback runs once.  Whatever
    follows, at most one instance is running.  GPS_WARN only shows its
    message. *)
Theorem gps_restart_after_retry
  (freq gain cal : Q) (gps_on : bool) (ops : list Op)
  (ev : Event) (msg : string) (now : Q) :
  ev = GPS_ERROR msg \/ ev = GPS_TIMEOUT msg ->
  let s := fst (run ops (fst (init freq gain cal gps_on))) in
  let s' := fst (fst (on_event ev now s)) in
  let fx := snd (fst (on_event ev now s)) in
  (gps s' = None /\ running s' = [] /\
   timers s' = timers s ++ [mkTimer now (GPS_RETRY * 1000)] /\
   (forall i, ~ In (GpsCreate i) fx) /\
   In (StatusText (Msg msg)) fx /\
   In (CallLater (GPS_RETRY * 1000)) fx) /\
  (forall t,
     t < now + GPS_RETRY ->
     expired t (mkTimer now (GPS_RETRY * 1000)) = false /\
     ((forall tm, In tm (timers s) -> expired t tm = false) ->
      fire_timers t s' = (s', []))) /\
  (forall t,
     now + GPS_RETRY <= t ->
     gpsEnabled s = true ->
     let s'' := fst (fire_timers t s') in
     (exists g, gps s'' = Some g /\ running s'' = [g]) /\
     (forall tm, In tm (timers s'') -> expired t tm = false)) /\
  (forall more, (length (running (fst (run more s'))) <= 1)%nat) /\
  on_event (GPS_WARN msg) now s = (s, [StatusText (Msg msg)], None).
Proof.
  intros Hev s s' fx.
  assert (Hinv : gps_inv s)
    by (unfold s; apply run_gps_inv, init_gps_inv).
  assert (Hstep : s' = fst (restart_gps now s) /\
                  fx = StatusText (Msg msg) :: snd (restart_gps now s)).
  { unfold s', fx. destruct Hev as [-> | ->]; cbn [on_event];
      destruct (restart_gps now s) as [s1 fx1]; now split. }
  destruct Hstep as [Hs' Hfx].
  destruct (restart_gps_result now s Hinv) as [G [R [T [E [C L]]]]].
  rewrite <- Hs' in G, R, T, E.
  assert (Hinv' : gps_inv s')
    by (rewrite Hs'; now apply restart_gps_inv).
  split; [| split; [| split; [| split]]].
  - rewrite Hfx. repeat split; try assumption.
    + intros i [Hx | Hin]; [discriminate | exact (C i Hin)].
    + now left.
    + now right.
  - intros t Ht. split; [now apply retry_timer_pending |].
    intro Hold. unfold fire_timers.
    assert (Hnone : forall tm, In tm (timers s') -> expired t tm = false).
    { intros tm Hin. rewrite T in Hin. apply in_app_or in Hin.
      destruct Hin as [Hin | [<- | []]]; [now apply Hold |].
      now apply retry_timer_pending. }
    rewrite (filter_none _ _ Hnone).
    rewrite filter_all
      by (intros x Hx; now rewrite (Hnone x Hx)).
    cbn [length run_callbacks]. now rewrite set_timers_same.
  - intros t Ht Hon s''. unfold s'', fire_timers.
    set (rest := filter (fun tm => negb (expired t tm)) (timers s')).
    assert (Hdue : exists n,
              length (filter (expired t) (timers s')) = S n).
    { rewrite T, filter_app, length_app. cbn [filter].
      rewrite (proj2 (retry_timer_expired now t) Ht). cbn [length].
      eexists. rewrite Nat.add_1_r. reflexivity. }
    destruct Hdue as [n ->]. cbn [run_callbacks].
    assert (Hstart :
      start_gps (set_timers rest s') =
        (set_gps (Some (fresh s')) [fresh s'] (S (fresh s'))
           (set_timers rest s'),
         [StatusText (Msg "Staring GPS..."); GpsCreate (fresh s')])).
    { unfold start_gps. cbn [gps set_timers gpsEnabled fresh running].
      rewrite G, E, Hon, R. reflexivity. }
    rewrite Hstart.
    rewrite (run_callbacks_held n _ (fresh s')) by reflexivity.
    cbn [fst]. split.
    + exists (fresh s'). now split.
    + intros tm Hin. cbn in Hin. unfold rest in Hin.
      apply filter_In in Hin. destruct Hin as [_ Hin].
      now apply negb_true_iff in Hin.
  - intro more. pose proof (run_gps_inv more s' Hinv') as Hm.
    unfold gps_inv in Hm. rewrite Hm.
    destruct (gps (fst (run more s'))); cbn; lia.
  - reflexivity.
Qed.

(** ** More about scan dispatch *)

Lemma call_indices_app (fx1 fx2 : list Effect) :
  call_indices (fx1 ++ fx2) = call_indices fx1 ++ call_indices fx2.
Proof. apply flat_map_app. Qed.

Lemma sent_app (fx1 fx2 : list Effect) :
  sent (fx1 ++ fx2) = sent fx1 ++ sent fx2.
Proof. apply flat_map_app. Qed.

(** The effects of one monitor's returned signal: no [set_level] call,
    and at most one record. *)
Lemma sends_shape (freq : Q) (signal : option Signal) (srv : option Server) :
  let sends :=
    match signal with
    | Some sg =>
        if is_some (sig_end sg) && is_some srv
        then [ServerSend (mkRecording freq sg)]
        else []
    | None => []
    end in
  call_indices sends = [] /\
  sent sends =
    match signal with
    | Some sg =>
        if is_some (sig_end sg) && is_some srv
        then [mkRecording freq sg] else []
    | None => []
    end.
Proof.
  destruct signal as [sg |]; [| now split].
  destruct (is_some (sig_end sg) && is_some srv); now split.
Qed.

Lemma scan_loop_order lv f ts loc srv k ms ms' fx upd e :
  scan_loop lv f ts loc srv k ms = (ms', fx, upd, e) ->
  (exists rest, enabled_positions k ms = call_indices fx ++ rest) /\
  (e = None -> call_indices fx = enabled_positions k ms).
Proof.
  revert k ms' fx upd e.
  induction ms as [| a ms IH]; intros k ms' fx upd e H.
  - inversion H; subst. split; [now exists [] | reflexivity].
  - scan_step H; cbn [enabled_positions]; rewrite Hen.
    + destruct (IH _ _ _ _ _ Hrest) as [[rest Hpre] Hall].
      change (SetLevel k (Some v) ts loc :: ?x)
        with ([SetLevel k (Some v) ts loc] ++ x).
      rewrite !call_indices_app.
      destruct (sends_shape (Monitor.frequency a) sg srv) as [-> _].
      cbn [call_indices flat_map app]. split.
      * exists rest. now rewrite Hpre.
      * intro He. now rewrite (Hall He).
    + split; [| discriminate].
      now exists (k :: enabled_positions (S k) ms).
    + exact (IH _ _ _ _ _ Hrest).
Qed.

(** X1.  A SCAN_DATA dispatch calls [set_level] on the enabled monitors
    in list order, each at most once: the called positions are an initial
    part of the enabled positions, and all of them when no exception is
    raised. *)
Theorem dispatch_in_registration_order (l f : list Q) (ts : Q) (s : Frame) :
  let fx := snd (fst (on_scan_data l f ts s)) in
  let e := snd (on_scan_data l f ts s) in
  (exists rest,
     enabled_positions 0 (monitors s) = call_indices fx ++ rest) /\
  (e = None -> call_indices fx = enabled_positions 0 (monitors s)).
Proof.
  unfold on_scan_data.
  destruct (smooth _ _) as [acc |]; cbn [fst snd].
  2:{ split; [now exists (enabled_positions 0 (monitors s)) | discriminate]. }
  cbn [monitors location server set_levels].
  destruct (scan_loop _ f ts (location s) (server s) 0 (monitors s))
    as [[[ms fx] upd] e] eqn:Hloop.
  pose proof (scan_loop_order _ _ _ _ _ _ _ _ _ _ _ Hloop) as Hord.
  destruct e as [x |]; exact Hord.
Qed.

Lemma scan_loop_length lv f ts loc srv k ms ms' fx upd e :
  scan_loop lv f ts loc srv k ms = (ms', fx, upd, e) ->
  length ms' = length ms.
Proof.
  revert k ms' fx upd e.
  induction ms as [| a ms IH]; intros k ms' fx upd e H.
  - now inversion H.
  - scan_step H; cbn [length]; try reflexivity;
      f_equal; exact (IH _ _ _ _ _ Hrest).
Qed.

Lemma scan_loop_failure lv f ts loc srv k ms ms' fx upd x :
  scan_loop lv f ts loc srv k ms = (ms', fx, upd, Some x) ->
  x = IndexError /\
  exists j m,
    nth_error ms j = Some m /\ Monitor.enabled m = true /\
    level_at f lv (Monitor.frequency m) = None /\
    (forall i, (j <= i)%nat -> nth_error ms' i = nth_error ms i) /\
    (forall i, In i (call_indices fx) -> (i < k + j)%nat).
Proof.
  revert k ms' fx upd.
  induction ms as [| a ms IH]; intros k ms' fx upd H.
  - inversion H.
  - scan_step H.
    + destruct (IH _ _ _ _ Hrest) as [Hx [j [m [Hn [He [Hl [Hkeep Hlt]]]]]]].
      split; [exact Hx |]. exists (S j), m. repeat split; try assumption.
      * intros i Hi. destruct i as [| i]; [lia |]. cbn. apply Hkeep. lia.
      * intros i Hin.
        change (SetLevel k (Some v) ts loc :: ?y)
          with ([SetLevel k (Some v) ts loc] ++ y) in Hin.
        rewrite !call_indices_app in Hin.
        destruct (sends_shape (Monitor.frequency a) sg srv) as [Hs _].
        rewrite Hs in Hin. cbn in Hin.
        destruct Hin as [<- | Hin]; [lia |].
        specialize (Hlt _ Hin). lia.
    + split; [reflexivity |]. exists 0%nat, a.
      repeat split; try assumption. intros i [].
    + destruct (IH _ _ _ _ Hrest) as [Hx [j [m [Hn [He [Hl [Hkeep Hlt]]]]]]].
      split; [exact Hx |]. exists (S j), m. repeat split; try assumption.
      * intros i Hi. destruct i as [| i]; [lia |]. cbn. apply Hkeep. lia.
      * intros i Hin. specialize (Hlt _ Hin). lia.
Qed.

Lemma smooth_none (acc x : list Q) :
  smooth acc x = None -> length x <> length acc /\ length x <> 1%nat.
Proof.
  unfold smooth.
  destruct (Nat.eqb (length x) (length acc)) eqn:E; [discriminate |].
  apply Nat.eqb_neq in E. intro H. split; [exact E |].
  destruct x as [| b [| b' x]]; cbn; try discriminate; lia.
Qed.

(** X2.  A dispatch that raises does so in one of two ways.  A sample of
    the wrong shape raises [ValueError] before anything is written: the
    frame is unchanged and no monitor is called.  Otherwise it is the
    [IndexError] of an enabled monitor whose bin lookup fails: the
    spectrum is already smoothed, only monitors before it have been
    called, that monitor and all after it are untouched, and the saved
    flag is left as it was. *)
Theorem dispatch_failure_is_partial
  (l f : list Q) (ts : Q) (s s' : Frame) (fx : list Effect) (x : Exn) :
  on_scan_data l f ts s = (s', fx, Some x) ->
  (x = ValueError /\ s' = s /\ fx = [] /\
   length l <> length (levels s) /\ length l <> 1%nat) \/
  (x = IndexError /\
   isSaved s' = isSaved s /\
   smooth (levels s) (map (fun v => 10 * log10 v) l) = Some (levels s') /\
   length (monitors s') = length (monitors s) /\
   exists j m,
     nth_error (monitors s) j = Some m /\ Monitor.enabled m = true /\
     level_at f (map (fun v => 10 * log10 v) l) (Monitor.frequency m)
       = None /\
     (forall i, (j <= i)%nat ->
                nth_error (monitors s') i = nth_error (monitors s) i) /\
     (forall i, In i (call_indices fx) -> (i < j)%nat)).
Proof.
  unfold on_scan_data.
  destruct (smooth _ _) as [acc |] eqn:Hs.
  2:{ intro H. injection H as <- <- <-. left.
      apply smooth_none in Hs. rewrite length_map in Hs.
      destruct Hs as [H1 H2]. repeat split; assumption. }
  cbn [monitors location server set_levels].
  destruct (scan_loop _ f ts (location s) (server s) 0 (monitors s))
    as [[[ms fx0] upd] e] eqn:Hloop.
  destruct e as [y |]; intro H; [| discriminate].
  injection H as <- <- <-.
  right.
  destruct (scan_loop_failure _ _ _ _ _ _ _ _ _ _ _ Hloop)
    as [Hx [j [m Hj]]].
  split; [exact Hx |]. split; [reflexivity |]. split; [reflexivity |].
  split; [exact (scan_loop_length _ _ _ _ _ _ _ _ _ _ _ Hloop) |].
  exists j, m. exact Hj.
Qed.

Lemma total_history_cons (m : Monitor.t) (ms : list Monitor.t) :
  total_history (m :: ms) =
    (length (Monitor.signals m) + total_history ms)%nat.
Proof. reflexivity. Qed.

(** One update, seen from the history: it grows by one entry exactly when
    a signal is returned, and a returned signal has its end set. *)
Lemma set_level_history (m : Monitor.t) (p : option Q) (ts : Q)
  (pos : option Location) (m' : Monitor.t) (signal : option Signal) :
  Monitor.set_level m p ts pos = (m', signal) ->
  match signal with
  | Some sg =>
      length (Monitor.signals m') = S (length (Monitor.signals m)) /\
      is_some (sig_end sg) = true
  | None => length (Monitor.signals m') = length (Monitor.signals m)
  end.
Proof.
  intro H. pose proof (set_level_cases m p ts pos) as Hc.
  rewrite H in Hc. cbn [fst snd] in Hc.
  destruct Hc as [Hs Hr _ | c _ _ Hs Hr]; subst signal.
  - now rewrite Hs.
  - rewrite Hs, length_app. cbn. split; [lia | reflexivity].
Qed.

Lemma scan_loop_history lv f ts loc srv k ms ms' fx upd e :
  scan_loop lv f ts loc srv k ms = (ms', fx, upd, e) ->
  (total_history ms <= total_history ms')%nat /\
  (upd = false -> total_history ms' = total_history ms) /\
  (upd = true -> (total_history ms < total_history ms')%nat) /\
  (is_some srv = true ->
   (length (sent fx) + total_history ms)%nat = total_history ms') /\
  (forall r, In r (sent fx) -> is_some (sig_end (rec_signal r)) = true).
Proof.
  revert k ms' fx upd e.
  induction ms as [| a ms IH]; intros k ms' fx upd e H.
  - inversion H; subst. cbn. repeat split; auto; discriminate.
  - scan_step H.
    + destruct (IH _ _ _ _ _ Hrest) as [Hle [Hsame [Hgrow [Hsent Hend]]]].
      pose proof (set_level_history _ _ _ _ _ _ Hset) as Hh.
      change (SetLevel k (Some v) ts loc :: ?y)
        with ([SetLevel k (Some v) ts loc] ++ y).
      rewrite !sent_app.
      destruct (sends_shape (Monitor.frequency a) sg srv) as [_ ->].
      cbn [sent flat_map app]. rewrite !total_history_cons.
      destruct sg as [sg |]; cbn [is_some orb].
      * destruct Hh as [Hlen Hhas]. rewrite Hhas. cbn [andb].
        repeat split; try lia; try discriminate.
        -- intro Hsrv. rewrite Hsrv. cbn [length app].
           specialize (Hsent Hsrv). lia.
        -- intros r Hin. destruct (is_some srv); cbn in Hin.
           ++ destruct Hin as [<- | Hin]; [exact Hhas | now apply Hend].
           ++ now apply Hend.
      * repeat split; try lia.
        -- intro Hu. specialize (Hsame Hu). lia.
        -- intro Hu. specialize (Hgrow Hu). lia.
        -- intro Hsrv. specialize (Hsent Hsrv). cbn [app]. lia.
        -- intros r Hin. now apply Hend.
    + cbn. repeat split; auto; discriminate.
    + destruct (IH _ _ _ _ _ Hrest) as [Hle [Hsame [Hgrow [Hsent Hend]]]].
      rewrite !total_history_cons. repeat split; try lia.
      * intro Hu. specialize (Hsame Hu). lia.
      * intro Hu. specialize (Hgrow Hu). lia.
      * intro Hsrv. specialize (Hsent Hsrv). lia.
      * exact Hend.
Qed.

(** X3.  A dispatch that ends without an exception leaves the frame
    marked saved exactly when it was saved before and no monitor recorded
    a signal, and in such a dispatch no history shrinks. *)
Theorem dispatch_marks_unsaved (l f : list Q) (ts : Q)
  (s s' : Frame) (fx : list Effect) :
  on_scan_data l f ts s = (s', fx, None) ->
  (total_history (monitors s) <= total_history (monitors s'))%nat /\
  isSaved s' =
    isSaved s &&
    Nat.eqb (total_history (monitors s')) (total_history (monitors s)).
Proof.
  unfold on_scan_data.
  destruct (smooth _ _) as [acc |]; [| discriminate].
  cbn [monitors location server set_levels isSaved set_monitors].
  destruct (scan_loop _ f ts (location s) (server s) 0 (monitors s))
    as [[[ms fx0] upd] e] eqn:Hloop.
  destruct (scan_loop_history _ _ _ _ _ _ _ _ _ _ _ Hloop)
    as [Hle [Hsame [Hgrow _]]].
  destruct e as [y |]; intro H; inversion H; subst; clear H.
  destruct upd.
  - specialize (Hgrow eq_refl).
    assert (E : Nat.eqb (total_history ms) (total_history (monitors s))
                = false) by (apply Nat.eqb_neq; lia).
    destruct (isSaved s) eqn:Hsv;
      cbn [andb monitors set_monitors isSaved set_isSaved];
      rewrite ?E, ?Hsv; split; auto; lia.
  - specialize (Hsame eq_refl). cbn [andb monitors set_monitors isSaved].
    rewrite Hsame, Nat.eqb_refl.
    split; [lia | now rewrite andb_true_r].
Qed.

(** X4.  While the server handle is held, a dispatch hands the server one
    record for every signal it recorded, no more and no fewer, also when
    it is cut short by an exception; every record sent carries a signal
    with its end set. *)
Theorem dispatch_exports_each_signal_once
  (l f : list Q) (ts : Q) (s : Frame) :
  is_some (server s) = true ->
  let s' := fst (fst (on_scan_data l f ts s)) in
  let fx := snd (fst (on_scan_data l f ts s)) in
  (length (sent fx) + total_history (monitors s))%nat
    = total_history (monitors s') /\
  (forall r, In r (sent fx) -> is_some (sig_end (rec_signal r)) = true).
Proof.
  intro Hsrv. unfold on_scan_data.
  destruct (smooth _ _) as [acc |]; cbn [fst snd];
    [| split; [reflexivity | intros r []]].
  cbn [monitors location server set_levels isSaved set_monitors].
  destruct (scan_loop _ f ts (location s) (server s) 0 (monitors s))
    as [[[ms fx0] upd] e] eqn:Hloop.
  destruct (scan_loop_history _ _ _ _ _ _ _ _ _ _ _ Hloop)
    as [_ [_ [_ [Hsent Hend]]]].
  specialize (Hsent Hsrv).
  destruct e as [y |]; cbn [fst snd monitors set_monitors].
  - split; assumption.
  - destruct (upd && isSaved s); cbn; split; assumption.
Qed.

(** ** Stop and record *)

Lemma stop_loop_effects (k : nat) (ms : list Monitor.t) :
  snd (stop_loop k ms) =
    map (fun i => SetLevel i (Some LEVEL_MIN) 0 None) (seq k (length ms)) /\
  length (fst (stop_loop k ms)) = length ms.
Proof.
  revert k. induction ms as [| a ms IH]; intro k; cbn [stop_loop].
  - now split.
  - destruct (IH (S k)) as [Hfx Hlen].
    destruct (stop_loop (S k) ms) as [rest fx]. cbn [fst snd] in *.
    cbn [length seq map]. split; [now rewrite Hfx | now rewrite Hlen].
Qed.

Lemma rec_loop_effects (rec : bool) (ts : Q) (k : nat)
  (ms : list Monitor.t) :
  snd (rec_loop rec ts k ms) =
    (if rec then []
     else map (fun i => SetLevel i None ts None) (seq k (length ms))) /\
  length (fst (rec_loop rec ts k ms)) = length ms.
Proof.
  revert k. induction ms as [| a ms IH]; intro k; cbn [rec_loop].
  - destruct rec; now split.
  - destruct (IH (S k)) as [Hfx Hlen].
    destruct (rec_loop rec ts (S k) ms) as [rest fx]. cbn [fst snd] in *.
    destruct rec; cbn [fst snd length seq map];
      (split; [now rewrite Hfx | now rewrite Hlen]).
Qed.

(** X5.  Stop drops the receiver, stopping it when there is one, and then
    calls [set_level(LEVEL_MIN, 0, None)] on every monitor exactly once, in
    list order.  Whatever those calls return is dropped: nothing is handed
    to the server and the saved flag is not touched.  A second stop finds
    no receiver to stop. *)
Theorem stop_resets_every_monitor (s : Frame) :
  snd (on_stop s) =
    (if is_some (receive s) then [ReceiveStop] else [])
      ++ map (fun i => SetLevel i (Some LEVEL_MIN) 0 None)
           (seq 0 (length (monitors s))) /\
  receive (fst (on_stop s)) = None /\
  length (monitors (fst (on_stop s))) = length (monitors s) /\
  isSaved (fst (on_stop s)) = isSaved s /\
  server (fst (on_stop s)) = server s /\
  ~ In ReceiveStop (snd (on_stop (fst (on_stop s)))).
Proof.
  assert (Hone : forall s0,
    snd (on_stop s0) =
      (if is_some (receive s0) then [ReceiveStop] else [])
        ++ map (fun i => SetLevel i (Some LEVEL_MIN) 0 None)
             (seq 0 (length (monitors s0))) /\
    receive (fst (on_stop s0)) = None /\
    length (monitors (fst (on_stop s0))) = length (monitors s0) /\
    isSaved (fst (on_stop s0)) = isSaved s0 /\
    server (fst (on_stop s0)) = server s0).
  { intro s0. unfold on_stop.
    destruct (receive s0) as [r |] eqn:Hr; cbn [monitors set_receive is_some];
      destruct (stop_loop_effects 0 (monitors s0)) as [Hfx Hlen];
      destruct (stop_loop 0 (monitors s0)) as [ms fx]; cbn [fst snd] in *;
      rewrite Hfx; cbn; rewrite ?Hr; auto. }
  destruct (Hone s) as [H1 [H2 [H3 [H4 H5]]]].
  repeat split; try assumption.
  destruct (Hone (fst (on_stop s))) as [H6 _]. rewrite H6, H2. cbn.
  intro Hin. apply in_map_iff in Hin. destruct Hin as [i [Hx _]].
  discriminate.
Qed.

(** X6.  Switching recording off calls [set_level(None, now, None)] on
    every monitor exactly once, in list order, and starts nothing;
    switching it on calls no [set_level] and makes sure a receiver exists,
    started with the toolbar's frequency, gain and calibration when there
    was none.  Neither touches the saved flag or the number of monitors. *)
Theorem record_toggle_calls (rec : bool) (now : Q) (s : Frame) :
  snd (on_rec rec now s) =
    (if rec then []
     else map (fun i => SetLevel i None now None)
            (seq 0 (length (monitors s)))) /\
  receive (fst (on_rec rec now s)) =
    (if rec
     then match receive s with
          | Some r => Some r
          | None => Some (mkReceive (tb_freq (toolbar s))
                            (tb_gain (toolbar s)) (tb_cal (toolbar s)))
          end
     else receive s) /\
  length (monitors (fst (on_rec rec now s))) = length (monitors s) /\
  isSaved (fst (on_rec rec now s)) = isSaved s.
Proof.
  unfold on_rec.
  set (s1 := if rec then on_start s else s).
  assert (Hm : monitors s1 = monitors s)
    by (unfold s1, on_start; destruct rec; [destruct (receive s) |];
        reflexivity).
  assert (Hsv : isSaved s1 = isSaved s)
    by (unfold s1, on_start; destruct rec; [destruct (receive s) |];
        reflexivity).
  assert (Hr : receive s1 =
               if rec
               then match receive s with
                    | Some r => Some r
                    | None => Some (mkReceive (tb_freq (toolbar s))
                                      (tb_gain (toolbar s))
                                      (tb_cal (toolbar s)))
                    end
               else receive s).
  { unfold s1, on_start. destruct rec; [| reflexivity].
    destruct (receive s) eqn:E; [exact E | reflexivity]. }
  destruct (rec_loop_effects rec now 0 (monitors s1)) as [Hfx Hlen].
  destruct (rec_loop rec now 0 (monitors s1)) as [ms fx].
  cbn [fst snd] in *. rewrite Hfx, Hm. cbn [receive set_monitors monitors
                                            isSaved].
  repeat split; try assumption. now rewrite Hlen, Hm.
Qed.

(** ** More about the position source *)

Lemma run_callbacks_timers (n : nat) (s : Frame) :
  timers (fst (run_callbacks n s)) = timers s.
Proof.
  revert s. induction n as [| n IH]; intro s; cbn [run_callbacks];
    [reflexivity |].
  assert (T1 : timers (fst (start_gps s)) = timers s).
  { unfold start_gps. destruct (gps s); [reflexivity |].
    destruct (gpsEnabled s); reflexivity. }
  destruct (start_gps s) as [s1 fx1]. cbn [fst] in *.
  specialize (IH s1). destruct (run_callbacks n s1) as [s2 fx2].
  cbn [fst] in *. congruence.
Qed.

Lemma run_callbacks_created (n : nat) (s : Frame) :
  (length (created (snd (run_callbacks n s))) <= 1)%nat /\
  (is_some (gps s) = true -> run_callbacks n s = (s, [])).
Proof.
  revert s. induction n as [| n IH]; intro s; cbn [run_callbacks].
  - split; [cbn; lia | reflexivity].
  - destruct (gps s) as [g |] eqn:G.
    + assert (Hs : start_gps s = (s, []))
        by (unfold start_gps; now rewrite G).
      destruct (IH s) as [_ Hheld].
      rewrite Hs, (Hheld ltac:(now rewrite G)). cbn. split; [lia | reflexivity].
    + split; [| discriminate].
      destruct (gpsEnabled s) eqn:E.
      * assert (Hs : start_gps s =
                     (set_gps (Some (fresh s)) (fresh s :: running s)
                        (S (fresh s)) s,
                      [StatusText (Msg "Staring GPS...");
                       GpsCreate (fresh s)]))
          by (unfold start_gps; now rewrite G, E).
        destruct (IH (set_gps (Some (fresh s)) (fresh s :: running s)
                        (S (fresh s)) s)) as [_ Hheld].
        rewrite Hs, (Hheld eq_refl). cbn. lia.
      * assert (Hs : start_gps s = (s, []))
          by (unfold start_gps; now rewrite G, E).
        rewrite Hs. destruct (IH s) as [Hle _].
        destruct (run_callbacks n s) as [s2 fx2]. exact Hle.
Qed.

(** X7.  Stopping the position source twice is stopping it once, and so
    is starting it twice: the second call changes nothing and does
    nothing.  A start creates an instance only when none is held and GPS
    is enabled in the settings. *)
Theorem gps_start_stop_idempotent (s : Frame) :
  stop_gps (fst (stop_gps s)) = (fst (stop_gps s), []) /\
  start_gps (fst (start_gps s)) = (fst (start_gps s), []) /\
  (created (snd (start_gps s)) <> [] ->
   gps s = None /\ gpsEnabled s = true) /\
  created (snd (stop_gps s)) = [].
Proof.
  split; [| split; [| split]].
  - unfold stop_gps. destruct (gps s) as [g |] eqn:G; cbn [fst gps set_gps].
    + reflexivity.
    + now rewrite G.
  - unfold start_gps. destruct (gps s) as [g |] eqn:G; cbn [fst].
    + now rewrite G.
    + destruct (gpsEnabled s) eqn:E; cbn [fst gps set_gps].
      * reflexivity.
      * now rewrite G, E.
  - unfold start_gps. destruct (gps s) as [g |]; cbn [snd created flat_map].
    + intro H. now elim H.
    + destruct (gpsEnabled s); cbn [snd created flat_map].
      * now split.
      * intro H. now elim H.
  - unfold stop_gps. now destruct (gps s).
Qed.

(** X8.  A timer tick runs [__start_gps] once for every expired timer and
    removes those timers: what stays armed is what has not expired, in
    arming order; however many timers expired, at most one instance is
    created, and none when one is held; a second tick at the same time
    does nothing. *)
Theorem tick_is_one_shot (now : Q) (s : Frame) :
  let s' := fst (fire_timers now s) in
  timers s' = filter (fun t => negb (expired now t)) (timers s) /\
  (length (created (snd (fire_timers now s))) <= 1)%nat /\
  (is_some (gps s) = true -> snd (fire_timers now s) = []) /\
  fire_timers now s' = (s', []).
Proof.
  intro s'. unfold s', fire_timers.
  set (rest := filter (fun t => negb (expired now t)) (timers s)).
  set (n := length (filter (expired now) (timers s))).
  assert (Ht : timers (fst (run_callbacks n (set_timers rest s))) = rest)
    by (now rewrite run_callbacks_timers).
  split; [exact Ht |]. split; [apply run_callbacks_created |].
  split.
  - intro Hg.
    destruct (run_callbacks_created n (set_timers rest s)) as [_ Hheld].
    now rewrite (Hheld Hg).
  - rewrite Ht.
    assert (Hun : forall t, In t rest -> expired now t = false).
    { intros t Hin. unfold rest in Hin. apply filter_In in Hin.
      destruct Hin as [_ Hin]. now apply negb_true_iff in Hin. }
    rewrite (filter_none _ _ Hun).
    rewrite filter_all by (intros t Hin; now rewrite (Hun t Hin)).
    cbn [length run_callbacks]. rewrite <- Ht at 1.
    now rewrite set_timers_same.
Qed.

(** ** The last known position *)

Lemma run_callbacks_location (n : nat) (s : Frame) :
  location (fst (run_callbacks n s)) = location s.
Proof.
  revert s. induction n as [| n IH]; intro s; cbn [run_callbacks];
    [reflexivity |].
  assert (L1 : location (fst (start_gps s)) = location s).
  { unfold start_gps. destruct (gps s); [reflexivity |].
    destruct (gpsEnabled s); reflexivity. }
  destruct (start_gps s) as [s1 fx1]. cbn [fst] in *.
  specialize (IH s1). destruct (run_callbacks n s1) as [s2 fx2].
  cbn [fst] in *. congruence.
Qed.

Ltac split_matches :=
  repeat match goal with
         | |- context [match ?x with _ => _ end] =>
             lazymatch x with
             | context [match _ with _ => _ end] => fail
             | _ => destruct x
             end
         end.

Lemma step_location (o : Op) (s : Frame) :
  is_fix o = false ->
  location (fst (fst (step o s))) = location s.
Proof.
  intro Ho.
  destruct o as [e now | now | freq | | rec now | | | tb | k | k m
                | ok choice | prompt choice | ok cleared | ok en];
    cbn [step].
  - destruct e; try discriminate; cbn [on_event];
      unfold on_scan_error, on_scan_data, on_server_error, restart_gps,
        stop_gps;
      split_matches; reflexivity.
  - unfold fire_timers.
    pose proof (run_callbacks_location
                  (length (filter (expired now) (timers s)))
                  (set_timers
                     (filter (fun t => negb (expired now t)) (timers s)) s))
      as R.
    destruct (run_callbacks _ _) as [s1 fx]. exact R.
  - unfold on_freq; cbn; split_matches; reflexivity.
  - unfold on_start; split_matches; reflexivity.
  - unfold on_rec, on_start; split_matches; reflexivity.
  - unfold on_stop; split_matches; reflexivity.
  - reflexivity.
  - reflexivity.
  - reflexivity.
  - reflexivity.
  - unfold on_open, open; split_matches; reflexivity.
  - unfold save; split_matches; reflexivity.
  - unfold on_clear; split_matches; reflexivity.
  - unfold on_gps, stop_gps, start_gps; cbn; split_matches; reflexivity.
Qed.

Lemma run_location (ops : list Op) (s : Frame) :
  forallb (fun o => negb (is_fix o)) ops = true ->
  location (fst (run ops s)) = location s.
Proof.
  revert s. induction ops as [| o ops IH]; intros s Hops; cbn [run];
    [reflexivity |].
  cbn in Hops. apply andb_true_iff in Hops. destruct Hops as [Ho Hops].
  apply negb_true_iff in Ho.
  pose proof (step_location o s Ho) as H1.
  destruct (step o s) as [[s1 fx1] x]. cbn [fst] in H1.
  specialize (IH s1 Hops).
  destruct (run ops s1) as [s2 fx2]. cbn [fst] in *. congruence.
Qed.

(** X9.  Only a GPS_LOC event writes the last known position.  After a
    fix, whatever else happens (GPS errors and restarts included), every
    [set_level] call of a later dispatch carries that fix, until the next
    GPS_LOC event. *)
Theorem last_fix_tags_later_dispatches
  (loc : Location) (t0 : Q) (ops : list Op) (l f : list Q) (ts : Q)
  (s : Frame) :
  forallb (fun o => negb (is_fix o)) ops = true ->
  let s1 := fst (run (Ev (GPS_LOC loc) t0 :: ops) s) in
  location s1 = Some loc /\
  forall k lvl t pos,
    In (SetLevel k lvl t pos) (snd (fst (on_scan_data l f ts s1))) ->
    pos = Some loc.
Proof.
  intros Hops s1.
  assert (Hloc : location s1 = Some loc).
  { unfold s1. cbn [run step on_event].
    pose proof (run_location ops (set_location (Some loc) s) Hops) as R.
    destruct (run ops (set_location (Some loc) s)) as [s2 fx2].
    cbn [fst] in *. exact R. }
  split; [exact Hloc |].
  intros k lvl t pos. unfold on_scan_data.
  destruct (smooth _ _) as [acc |]; cbn [fst snd]; [| intros []].
  cbn [monitors location server set_levels].
  destruct (scan_loop _ f ts (location s1) (server s1) 0 (monitors s1))
    as [[[ms fx] upd] e] eqn:Hloop.
  intro Hin.
  assert (Hin' : In (SetLevel k lvl t pos) fx)
    by (destruct e; [exact Hin | destruct (upd && _); exact Hin]).
  destruct (scan_loop_calls _ _ _ _ _ _ _ _ _ _ _ Hloop _ _ _ _ Hin')
    as [j [m [v [_ [_ [_ [_ [_ [_ Hpos]]]]]]]]].
  congruence.
Qed.

(** ** Panels, receiver and frequency axis *)

Lemma remove_nth_nth {A : Type} (k i : nat) (l : list A) :
  nth_error (remove_nth k l) i =
    if Nat.ltb i k then nth_error l i else nth_error l (S i).
Proof.
  revert k i. induction l as [| a l IH]; intros k i.
  - assert (E : remove_nth k (@nil A) = []) by now destruct k.
    rewrite E. destruct (Nat.ltb i k); now destruct i.
  - destruct k as [| k]; [reflexivity |].
    destruct i as [| i]; [reflexivity |].
    cbn [remove_nth nth_error]. rewrite IH.
    change (Nat.ltb (S i) (S k)) with (Nat.ltb i k). reflexivity.
Qed.

Lemma remove_nth_last {A : Type} (l : list A) (x : A) :
  remove_nth (length l) (l ++ [x]) = l.
Proof.
  induction l as [| a l IH]; [reflexivity |].
  cbn. now rewrite IH.
Qed.

(** X10.  Deleting the panel at position [k] keeps the other monitors in
    order, the ones after it moving up by one.  Adding a panel and
    deleting it again gives back the monitor list, but the frame stays
    marked unsaved. *)
Theorem add_then_delete_restores_list (s : Frame) :
  monitors (on_del (length (monitors s)) (on_add s)) = monitors s /\
  isSaved (on_del (length (monitors s)) (on_add s)) = false /\
  nth_error (monitors (on_add s)) (length (monitors s)) = Some new_panel /\
  (forall k i,
     nth_error (monitors (on_del k s)) i =
       if Nat.ltb i k then nth_error (monitors s) i
       else nth_error (monitors s) (S i)).
Proof.
  unfold on_del, on_add. cbn [monitors set_monitors set_isSaved isSaved].
  split; [apply remove_nth_last |]. split; [reflexivity |].
  split.
  - rewrite nth_error_app2 by lia. now rewrite Nat.sub_diag.
  - intros k i. apply remove_nth_nth.
Qed.

(** X11.  A scan error leaves the receiver handle in place, and
    [__on_start] starts a receiver only when there is no handle: pressing
    start after a scan error starts nothing.  After a stop, start creates
    a receiver from the toolbar's frequency, gain and calibration. *)
Theorem start_after_scan_error (msg : string) (s : Frame) (r : Receive) :
  receive s = Some r ->
  on_start (fst (on_scan_error msg s)) = s /\
  receive (on_start (fst (on_stop (fst (on_scan_error msg s))))) =
    Some (mkReceive (tb_freq (toolbar s)) (tb_gain (toolbar s))
            (tb_cal (toolbar s))).
Proof.
  intro Hr. split.
  - unfold on_scan_error, on_start. cbn [fst]. now rewrite Hr.
  - unfold on_scan_error, on_stop. cbn [fst]. rewrite Hr.
    cbn [monitors set_receive].
    destruct (stop_loop 0 (monitors s)) as [ms fx]. reflexivity.
Qed.

(** X12.  Tuning replaces the whole frequency axis by the [psd] offsets
    shifted by the new centre frequency, so the last tuning wins; a
    running receiver is retuned and keeps its gain and calibration; the
    monitors are not touched. *)
Theorem tuning_shifts_the_axis (f1 f2 : Q) (s : Frame) :
  on_freq f2 (on_freq f1 s) = on_freq f2 s /\
  length (freqs (on_freq f1 s)) = length psd_freqs /\
  (forall i o, nth_error psd_freqs i = Some o ->
               nth_error (freqs (on_freq f1 s)) i = Some (o + f1)) /\
  monitors (on_freq f1 s) = monitors s /\
  receive (on_freq f1 s) =
    option_map (fun r => mkReceive f1 (rx_gain r) (rx_cal r)) (receive s).
Proof.
  unfold on_freq. cbn [receive set_freqs].
  destruct (receive s) as [r |] eqn:Hr;
    cbn [receive set_receive set_freqs freqs monitors option_map rx_gain
           rx_cal].
  - repeat split; try reflexivity.
    + now rewrite length_map.
    + intros i o Ho. now rewrite nth_error_map, Ho.
  - rewrite Hr. repeat split; try reflexivity.
    + now rewrite length_map.
    + intros i o Ho. now rewrite nth_error_map, Ho.
Qed.

(** ** Title and menus *)

Lemma run_callbacks_shape (n : nat) (s : Frame) :
  exists g r f, fst (run_callbacks n s) = set_gps g r f s.
Proof.
  revert s. induction n as [| n IH]; intro s; cbn [run_callbacks].
  - exists (gps s), (running s), (fresh s). now destruct s.
  - assert (H1 : exists g r f, fst (start_gps s) = set_gps g r f s).
    { unfold start_gps. destruct (gps s) eqn:G.
      - exists (gps s), (running s), (fresh s). now destruct s.
      - destruct (gpsEnabled s).
        + now exists (Some (fresh s)), (fresh s :: running s), (S (fresh s)).
        + exists (gps s), (running s), (fresh s). now destruct s. }
    destruct (start_gps s) as [s1 fx1]. cbn [fst] in H1.
    destruct H1 as [g1 [r1 [f1 ->]]].
    destruct (IH (set_gps g1 r1 f1 s)) as [g [r [f H2]]].
    destruct (run_callbacks n (set_gps g1 r1 f1 s)) as [s2 fx2].
    cbn [fst] in *. subst s2. now exists g, r, f.
Qed.

Lemma fire_timers_shape (now : Q) (s : Frame) :
  exists g r f ts, fst (fire_timers now s) = set_gps g r f (set_timers ts s).
Proof.
  unfold fire_timers.
  destruct (run_callbacks_shape
              (length (filter (expired now) (timers s)))
              (set_timers
                 (filter (fun t => negb (expired now t)) (timers s)) s))
    as [g [r [f H]]].
  now exists g, r, f, (filter (fun t => negb (expired now t)) (timers s)).
Qed.

(** Apart from the operations of [writes_file], no handler writes the
    file name or the saved flag. *)
Lemma step_same_file (o : Op) (s : Frame) :
  writes_file o = false ->
  filename (fst (fst (step o s))) = filename s /\
  isSaved (fst (fst (step o s))) = isSaved s.
Proof.
  intro Ho.
  destruct o as [e now | now | freq | | rec now | | | tb | k | k m
                | ok choice | prompt choice | ok cleared | ok en];
    try discriminate; cbn [step].
  - destruct e; try discriminate; cbn [on_event];
      unfold on_scan_error, on_server_error, restart_gps, stop_gps;
      split_matches; split; reflexivity.
  - destruct (fire_timers_shape now s) as [g [r [f [ts H]]]].
    destruct (fire_timers now s) as [s1 fx]. cbn [fst] in *. subst s1.
    split; reflexivity.
  - unfold on_freq; cbn; split_matches; split; reflexivity.
  - unfold on_start; split_matches; split; reflexivity.
  - unfold on_rec, on_start; split_matches; split; reflexivity.
  - unfold on_stop; split_matches; split; reflexivity.
  - split; reflexivity.
  - split; reflexivity.
  - unfold on_gps, stop_gps, start_gps; cbn; split_matches; split;
      reflexivity.
Qed.

(** Apart from the operations of [moves_receiver], no handler creates or
    drops the receiver. *)
Lemma step_same_receiver (o : Op) (s : Frame) :
  moves_receiver o = false ->
  is_some (receive (fst (fst (step o s)))) = is_some (receive s).
Proof.
  intro Ho.
  destruct o as [e now | now | freq | | rec now | | | tb | k | k m
                | ok choice | prompt choice | ok cleared | ok en];
    try discriminate; cbn [step].
  - destruct e; cbn [on_event];
      unfold on_scan_error, on_scan_data, on_server_error, restart_gps,
        stop_gps;
      split_matches; reflexivity.
  - destruct (fire_timers_shape now s) as [g [r [f [ts H]]]].
    destruct (fire_timers now s) as [s1 fx]. cbn [fst] in *. subst s1.
    reflexivity.
  - unfold on_freq; cbn [receive set_freqs].
    destruct (receive s) eqn:E; cbn; now rewrite ?E.
  - cbn in Ho. subst rec. unfold on_rec; split_matches; reflexivity.
  - reflexivity.
  - reflexivity.
  - reflexivity.
  - reflexivity.
  - unfold on_open, open; split_matches; reflexivity.
  - unfold save; split_matches; reflexivity.
  - unfold on_clear; split_matches; reflexivity.
  - unfold on_gps, stop_gps, start_gps; cbn; split_matches; reflexivity.
Qed.

Lemma fst_lift (p : Frame * list Effect) :
  fst (fst (let '(s1, fx) := p in (s1, fx, @None Exn))) = fst p.
Proof. now destruct p. Qed.

Lemma set_title_shows (app : string) (s : Frame) (c : Chrome) :
  title_shows app s (set_title app s c).
Proof.
  unfold title_shows, set_title. cbn [title menuSave menuSaveAs].
  destruct (filename s); destruct (isSaved s); repeat split; reflexivity.
Qed.

Lemma title_shows_same (app : string) (s s' : Frame) (c c' : Chrome) :
  filename s' = filename s /\ isSaved s' = isSaved s ->
  title c' = title c -> menuSave c' = menuSave c ->
  menuSaveAs c' = menuSaveAs c ->
  title_shows app s c -> title_shows app s' c'.
Proof.
  unfold title_shows. intros [-> ->] -> -> ->. exact (fun H => H).
Qed.

(** When [__on_scan_data] does not reach its [__set_title] call it has
    not written the saved flag either. *)
Lemma scan_without_retitle (l f : list Q) (ts : Q) (s : Frame) :
  scan_retitles l f ts s = false ->
  filename (fst (fst (on_scan_data l f ts s))) = filename s /\
  isSaved (fst (fst (on_scan_data l f ts s))) = isSaved s.
Proof.
  unfold scan_retitles, on_scan_data.
  destruct (smooth _ _) as [acc |]; [| now split].
  cbn [monitors location server set_levels isSaved set_monitors].
  destruct (scan_loop _ f ts (location s) (server s) 0 (monitors s))
    as [[[ms fx] upd] e].
  destruct e as [x |]; [now split |].
  intros ->. now split.
Qed.

Lemma chrome_quiet_title (app : string) (o : Op) (s : Frame) (c : Chrome) :
  writes_file o = false ->
  title (chrome_step app o s c) = title c /\
  menuSave (chrome_step app o s c) = menuSave c /\
  menuSaveAs (chrome_step app o s c) = menuSaveAs c.
Proof.
  intro Ho.
  destruct o as [e now | now | freq | | rec now | | | tb | k | k m
                | ok choice | prompt choice | ok cleared | ok en];
    try discriminate; cbn [chrome_step]; try (now repeat split).
  - destruct e; try discriminate; now repeat split.
  - destruct rec; now repeat split.
Qed.

Lemma gui_step_title (app : string) (o : Op) (g : Frame * Chrome) :
  title_shows app (fst g) (snd g) ->
  title_shows app (fst (gui_step app o g)) (snd (gui_step app o g)).
Proof.
  destruct g as [s c]. cbn [fst snd]. intro H. unfold gui_step.
  destruct (offered o (snd (s, c))); [| exact H]. cbn [fst snd].
  destruct (writes_file o) eqn:Hw.
  2:{ destruct (chrome_quiet_title app o s c Hw) as [T [M1 M2]].
      exact (title_shows_same app s _ c _ (step_same_file o s Hw) T M1 M2 H). }
  destruct o as [e now | now | freq | | rec now | | | tb | k | k m
                | ok choice | prompt choice | ok cleared | ok en];
    try discriminate; cbn [step chrome_step].
  - destruct e as [msg | l f ts | msg | msg | msg | msg | loc | |];
      try discriminate; cbn [on_event].
    + destruct (scan_retitles l f ts s) eqn:R; [apply set_title_shows |].
      exact (title_shows_same app s _ c c (scan_without_retitle l f ts s R)
               eq_refl eq_refl eq_refl H).
    + apply set_title_shows.
  - apply set_title_shows.
  - apply set_title_shows.
  - unfold on_open.
    destruct (negb (isSaved s) && negb ok); [exact H |].
    destruct choice as [path |]; [| exact H].
    destruct (open path s) as [s1 fx] eqn:E. cbn [fst].
    pose proof (set_title_shows app (set_isSaved true s1)
                  (open_chrome app path s c)) as T.
    unfold on_open in T.
    exact T.
  - rewrite fst_lift.
    destruct (prompt || negb (is_some (filename s))) eqn:P;
      [| apply set_title_shows].
    destruct choice as [path |]; [apply set_title_shows |].
    unfold save. rewrite P. exact H.
  - rewrite fst_lift. destruct ok; [apply set_title_shows | exact H].
Qed.

Lemma chrome_quiet_menus (app : string) (o : Op) (s : Frame) (c : Chrome) :
  moves_receiver o = false ->
  (forall ok choice, o <> MenuOpen ok choice) ->
  menuOpen (chrome_step app o s c) = menuOpen c /\
  menuGps (chrome_step app o s c) = menuGps c /\
  menuExit (chrome_step app o s c) = menuExit c /\
  menuClear (chrome_step app o s c) = menuClear c.
Proof.
  intros Ho Hopen.
  destruct o as [e now | now | freq | | rec now | | | tb | k | k m
                | ok choice | prompt choice | ok cleared | ok en];
    try discriminate; cbn [chrome_step]; try (now repeat split).
  - destruct e; try (now repeat split).
    destruct (scan_retitles l f timestamp s); now repeat split.
  - cbn in Ho. subst rec. now repeat split.
  - now elim (Hopen ok choice).
  - destruct (prompt || negb (is_some (filename s)));
      [destruct choice |]; now repeat split.
  - destruct ok; now repeat split.
Qed.

Lemma on_rec_receiver (now : Q) (s : Frame) :
  is_some (receive (fst (on_rec true now s))) = true.
Proof.
  unfold on_rec, on_start.
  destruct (receive s) eqn:E;
    destruct (rec_loop _ _ _ _) as [ms fx]; cbn; now rewrite ?E.
Qed.

Lemma on_stop_receiver (s : Frame) : receive (fst (on_stop s)) = None.
Proof.
  unfold on_stop.
  destruct (receive s) eqn:E; destruct (stop_loop _ _) as [ms fx]; cbn;
    now rewrite ?E.
Qed.

Lemma gui_step_menus (app : string) (o : Op) (g : Frame * Chrome) :
  menus_follow_receiver (fst g) (snd g) ->
  menus_follow_receiver (fst (gui_step app o g)) (snd (gui_step app o g)).
Proof.
  destruct g as [s c]. cbn [fst snd]. intro H. unfold gui_step.
  destruct (offered o (snd (s, c))) eqn:Hoff; [| exact H]. cbn [fst snd] in *.
  destruct H as [HO [HG [HE HC]]].
  assert (Hquiet :
    moves_receiver o = false ->
    (forall ok choice, o <> MenuOpen ok choice) ->
    menus_follow_receiver (fst (fst (step o s))) (chrome_step app o s c)).
  { intros Hm Hopen.
    destruct (chrome_quiet_menus app o s c Hm Hopen) as [A [B [C D]]].
    unfold menus_follow_receiver.
    rewrite A, B, C, D, (step_same_receiver o s Hm). auto. }
  destruct o as [e now | now | freq | | rec now | | | tb | k | k m
                | ok choice | prompt choice | ok cleared | ok en];
    try (apply Hquiet; [reflexivity | discriminate]).
  - cbn [step chrome_step]. unfold on_start, menus_follow_receiver.
    destruct (receive s) eqn:E; cbn; rewrite ?E; cbn; repeat split; auto.
  - destruct rec; [| apply Hquiet; [reflexivity | discriminate]].
    cbn [step chrome_step]. rewrite fst_lift.
    unfold menus_follow_receiver. rewrite on_rec_receiver. cbn.
    repeat split; auto.
  - cbn [step chrome_step]. rewrite fst_lift.
    unfold menus_follow_receiver. rewrite on_stop_receiver. cbn.
    repeat split; auto.
  - cbn [offered] in Hoff.
    assert (Hrx : is_some (receive s) = false)
      by (rewrite Hoff in HO; now destruct (is_some (receive s))).
    assert (Hrx' : is_some (receive (fst (fst (step (MenuOpen ok choice) s))))
                   = false)
      by (now rewrite step_same_receiver).
    cbn [step] in Hrx'. cbn [step chrome_step].
    unfold menus_follow_receiver. rewrite Hrx'. cbn [negb].
    destruct (negb (isSaved s) && negb ok); [now rewrite <- HG, <- HE in * |].
    destruct choice as [path |]; [| now rewrite <- HG, <- HE in *].
    unfold open_chrome.
    destruct (load_recordings path); cbn; auto.
Qed.

Lemma gui_run_invariants (app : string) (ops : list Op)
  (g : Frame * Chrome) :
  title_shows app (fst g) (snd g) /\ menus_follow_receiver (fst g) (snd g) ->
  title_shows app (fst (gui_run app ops g)) (snd (gui_run app ops g)) /\
  menus_follow_receiver (fst (gui_run app ops g)) (snd (gui_run app ops g)).
Proof.
  revert g. induction ops as [| o ops IH]; intros g [HT HM]; cbn [gui_run].
  - now split.
  - apply IH. split; [now apply gui_step_title | now apply gui_step_menus].
Qed.

Lemma gui_init_invariants (app : string) (freq gain cal : Q)
  (gps_on : bool) (c0 : Chrome) :
  let g := gui_init app freq gain cal gps_on c0 in
  title_shows app (fst g) (snd g) /\ menus_follow_receiver (fst g) (snd g).
Proof.
  cbn zeta. unfold gui_init. cbn [fst snd]. split.
  - pose proof (set_title_shows app (fst (init freq gain cal gps_on)) c0)
      as H.
    exact H.
  - assert (Hr : receive (fst (init freq gain cal gps_on)) = None).
    { unfold init, start_gps, on_freq. cbn. now destruct gps_on. }
    unfold menus_follow_receiver. rewrite Hr. cbn. auto.
Qed.

(** X13.  In every state of a session the window title and the Save and
    Save As entries are up to date: the title is the application name,
    followed by the name of the open file when there is one, followed by a
    star exactly when the frame is not saved; Save is offered when a file
    name is known and the frame is not saved, Save As whenever it is not
    saved. *)
Theorem title_follows_file_and_saved_flag
  (app : string) (freq gain cal : Q) (gps_on : bool) (c0 : Chrome)
  (ops : list Op) :
  let g := gui_run app ops (gui_init app freq gain cal gps_on c0) in
  title (snd g) =
    (let named := match filename (fst g) with
                  | Some path => (app ++ " - " ++ path_tail path)%string
                  | None => app
                  end in
     if isSaved (fst g) then named else (named ++ "*")%string) /\
  menuSave (snd g) = is_some (filename (fst g)) && negb (isSaved (fst g)) /\
  menuSaveAs (snd g) = negb (isSaved (fst g)).
Proof.
  exact (proj1 (gui_run_invariants app ops _
                  (gui_init_invariants app freq gain cal gps_on c0))).
Qed.

(** X14.  In every state of a session the Open, GPS and Exit entries are
    offered exactly when there is no receiver, and Clear is offered only
    then: while the receiver is held none of the four can be chosen. *)
Theorem menus_locked_while_receiving
  (app : string) (freq gain cal : Q) (gps_on : bool) (c0 : Chrome)
  (ops : list Op) :
  let g := gui_run app ops (gui_init app freq gain cal gps_on c0) in
  menuOpen (snd g) = negb (is_some (receive (fst g))) /\
  menuGps (snd g) = menuOpen (snd g) /\
  menuExit (snd g) = menuOpen (snd g) /\
  (menuClear (snd g) = true -> menuOpen (snd g) = true).
Proof.
  exact (proj2 (gui_run_invariants app ops _
                  (gui_init_invariants app freq gain cal gps_on c0))).
Qed.

(** ** Saving, loading and leaving *)

Lemma step_stays_unsaved (o : Op) (s : Frame) :
  is_save_or_open o = false ->
  isSaved s = false ->
  isSaved (fst (fst (step o s))) = false.
Proof.
  intros Ho Hs.
  destruct (writes_file o) eqn:Hw.
  2:{ destruct (step_same_file o s Hw) as [_ H]. congruence. }
  destruct o as [e now | now | freq | | rec now | | | tb | k | k m
                | ok choice | prompt choice | ok cleared | ok en];
    try discriminate; cbn [step].
  - destruct e as [msg | l f ts | msg | msg | msg | msg | loc | |];
      try discriminate; cbn [on_event]; [| reflexivity].
    unfold on_scan_data.
    destruct (smooth _ _) as [acc |]; [| exact Hs].
    destruct (scan_loop _ _ _ _ _ _ _) as [[[ms fx] upd] e].
    destruct e; [exact Hs |]. cbn [fst].
    destruct (upd && _); [reflexivity | exact Hs].
  - reflexivity.
  - reflexivity.
  - rewrite fst_lift. unfold on_clear. destruct ok; [reflexivity | exact Hs].
Qed.

(** X15.  Once the frame is marked unsaved, only Save and Open can mark
    it saved again: no event, timer, toolbar or panel operation and no
    other menu entry does. *)
Theorem only_save_and_open_mark_saved (ops : list Op) (s : Frame) :
  forallb (fun o => negb (is_save_or_open o)) ops = true ->
  isSaved s = false ->
  isSaved (fst (run ops s)) = false.
Proof.
  revert s. induction ops as [| o ops IH]; intros s Hops Hs; cbn [run];
    [exact Hs |].
  cbn in Hops. apply andb_true_iff in Hops. destruct Hops as [Ho Hops].
  apply negb_true_iff in Ho.
  pose proof (step_stays_unsaved o s Ho Hs) as H1.
  destruct (step o s) as [[s1 fx1] x]. cbn [fst] in H1.
  specialize (IH s1 Hops H1).
  destruct (run ops s1) as [s2 fx2]. exact IH.
Qed.

(** X16.  An unsaved frame is guarded: when the warning is declined,
    neither Open nor Exit changes anything or goes on to load or stop.
    Saving under a chosen name stores that name, writes the file, and
    marks the frame saved, after which Open asks no question. *)
Theorem unsaved_frame_is_guarded
  (s : Frame) (choice : option string) (path : string) (ok : bool) :
  isSaved s = false ->
  on_open false choice s = (s, [MessageBox "Not saved, continue?"]) /\
  on_exit false s = (s, [Did (MessageBox "Not saved, continue?")]) /\
  (let s1 := fst (save true (Some path) s) in
   filename s1 = Some path /\ isSaved s1 = true /\
   monitors s1 = monitors s /\
   snd (save true (Some path) s) = [SaveRecordings path] /\
   snd (on_open ok None s1) = []).
Proof.
  intro Hs. unfold on_open, on_exit, save. rewrite Hs.
  cbn [negb andb orb fst snd filename isSaved monitors set_isSaved
         set_filename].
  repeat split; reflexivity.
Qed.

(** X17.  A file that loads replaces the monitor list: there is one panel
    per stored monitor, in file order, with the stored frequency,
    threshold, enabled flag, alert flag, signals and periods; the file
    name and the toolbar's frequency, gain and calibration are taken from
    the load, the frame is marked saved and no message is shown.
    Receiver, server, position source and smoothed spectrum are not
    touched. *)
Theorem open_loads_monitors_in_order
  (path : string) (s : Frame) (freq gain cal : Q)
  (loaded : list Monitor.t) :
  load_recordings path = Some (freq, gain, cal, loaded) ->
  let s' := fst (open path s) in
  snd (open path s) = [] /\
  filename s' = Some path /\
  toolbar s' = mkToolbar freq gain cal /\
  isSaved s' = true /\
  length (monitors s') = length loaded /\
  map Monitor.frequency (monitors s') = map Monitor.frequency loaded /\
  map Monitor.threshold (monitors s') = map Monitor.threshold loaded /\
  map Monitor.enabled (monitors s') = map Monitor.enabled loaded /\
  map Monitor.alertEnabled (monitors s') = map Monitor.alertEnabled loaded /\
  map Monitor.signals (monitors s') = map Monitor.signals loaded /\
  map Monitor.periods (monitors s') = map Monitor.periods loaded /\
  receive s' = receive s /\ server s' = server s /\ gps s' = gps s /\
  levels s' = levels s /\ location s' = location s.
Proof.
  intro H. unfold open. rewrite H.
  cbn [fst snd monitors filename toolbar isSaved receive server gps levels
         location set_filename set_toolbar set_isSaved set_monitors app].
  rewrite length_map, !map_map.
  repeat split; try reflexivity; apply map_ext; intro m; reflexivity.
Qed.

(** X18.  Exit, once past the save warning, stops the receiver and the
    position source and leaves none running, stops the server exactly
    when its handle is still held, stores the toolbar's frequency, gain
    and calibration in the settings, and destroys the frame last. *)
Theorem exit_stops_everything
  (freq gain cal : Q) (gps_on : bool) (ops : list Op) (ok : bool) :
  let s := fst (run ops (fst (init freq gain cal gps_on))) in
  isSaved s = true \/ ok = true ->
  let s' := fst (on_exit ok s) in
  let fx := snd (on_exit ok s) in
  receive s' = None /\ gps s' = None /\ running s' = [] /\
  (In ServerStop fx <-> is_some (server s) = true) /\
  In (SettingsSave (tb_freq (toolbar s)) (tb_gain (toolbar s))
        (tb_cal (toolbar s))) fx /\
  last fx Destroy = Destroy /\
  (forall k, (k < length (monitors s))%nat ->
             In (Did (SetLevel k (Some LEVEL_MIN) 0 None)) fx).
Proof.
  intros s Hgo s' fx.
  assert (Hinv : gps_inv s) by (unfold s; apply run_gps_inv, init_gps_inv).
  assert (Hc : negb (isSaved s) && negb ok = false)
    by (destruct Hgo as [-> | ->]; [reflexivity | apply andb_false_r]).
  unfold s', fx, on_exit. rewrite Hc.
  pose proof (on_stop_receiver s) as Hrx.
  pose proof (on_stop_same_gps s) as Hsame.
  pose proof (on_stop_keeps s) as [[Hsrv _] _].
  assert (Htb : toolbar (fst (on_stop s)) = toolbar s)
    by (unfold on_stop; destruct (receive s);
        destruct (stop_loop _ _); reflexivity).
  assert (Hcalls : forall k, (k < length (monitors s))%nat ->
                   In (SetLevel k (Some LEVEL_MIN) 0 None) (snd (on_stop s))).
  { intros k Hk. destruct (nth_error (monitors s) k) as [m |] eqn:E.
    - unfold on_stop.
      destruct (receive s); cbn [monitors set_receive];
        destruct (stop_loop_calls 0 (monitors s) k m E) as [Hin _];
        destruct (stop_loop 0 (monitors s)) as [ms fx0]; cbn [fst snd] in *;
        [right |]; exact Hin.
    - apply nth_error_None in E. lia. }
  destruct (on_stop s) as [s1 fx1]. cbn [fst snd] in *.
  pose proof (same_gps_inv s s1 Hsame Hinv) as Hinv1.
  destruct (stop_gps_inv s1 Hinv1) as [_ [Hg [Hrun _]]].
  assert (Hrx2 : receive (fst (stop_gps s1)) = receive s1)
    by (unfold stop_gps; destruct (gps s1); reflexivity).
  assert (Htb2 : toolbar (fst (stop_gps s1)) = toolbar s1)
    by (unfold stop_gps; destruct (gps s1); reflexivity).
  destruct (stop_gps s1) as [s2 fx2]. cbn [fst snd] in *.
  rewrite Htb2, Htb, Hsrv.
  split; [congruence |]. split; [exact Hg |]. split; [exact Hrun |].
  split; [| split; [| split]].
  - split.
    + intro Hin. repeat (apply in_app_or in Hin; destruct Hin as [Hin | Hin]).
      * destruct (negb (isSaved s)); [destruct Hin as [Hx | []] | destruct Hin];
          discriminate.
      * apply in_map_iff in Hin. destruct Hin as [e [Hx _]]. discriminate.
      * destruct (server s); [reflexivity | destruct Hin].
      * apply in_map_iff in Hin. destruct Hin as [e [Hx _]]. discriminate.
      * destruct Hin as [Hx | [Hx | []]]; discriminate.
    + intro Hs. apply in_or_app. right. apply in_or_app. right.
      apply in_or_app. left. destruct (server s); [now left | discriminate].
  - repeat (apply in_or_app; right). now left.
  - match goal with
    | |- context [[?a; Destroy]] => change [a; Destroy] with ([a] ++ [Destroy])
    end.
    rewrite !app_assoc. apply last_last.
  - intros k Hk. apply in_or_app. right. apply in_or_app. left.
    apply in_map. now apply Hcalls.
Qed.

(** ** When a dispatch goes through *)

Lemma where_eq_bound (x : Q) (f : list Q) (k : nat) :
  Forall (fun i => (i < k + length f)%nat) (where_eq x f k).
Proof.
  revert k. induction f as [| a f IH]; intro k; cbn [where_eq length].
  - constructor.
  - specialize (IH (S k)).
    assert (IH' : Forall (fun i => (i < k + S (length f))%nat)
                    (where_eq x f (S k))).
    { eapply Forall_impl; [| exact IH]. cbn. intros i Hi. lia. }
    destruct (Qeq_bool x a); [constructor; [lia | exact IH'] | exact IH'].
Qed.

Lemma where_eq_found (x : Q) (f : list Q) (k j : nat) (fj : Q) :
  nth_error f j = Some fj -> x == fj -> where_eq x f k <> [].
Proof.
  intros Hn Hq Hnil. exact (where_eq_nil x f k Hnil j fj Hn Hq).
Qed.

Lemma take_indices_in_range (ls : list Q) (index : list nat) :
  Forall (fun i => (i < length ls)%nat) index ->
  exists vs, take_indices ls index = Some vs /\ length vs = length index.
Proof.
  induction index as [| i index IH]; intro H; cbn [take_indices].
  - now exists [].
  - inversion H as [| ? ? Hi Hrest]; subst.
    destruct (IH Hrest) as [vs [-> Hlen]].
    destruct (nth_error ls i) as [v |] eqn:E.
    + exists (v :: vs). cbn. now rewrite Hlen.
    + apply nth_error_None in E. lia.
Qed.

Lemma level_at_found (f lv : list Q) (x : Q) (j : nat) (fj : Q) :
  (length f <= length lv)%nat ->
  nth_error f j = Some fj -> x == fj ->
  exists v, level_at f lv x = Some v.
Proof.
  intros Hlen Hn Hq. unfold level_at.
  pose proof (where_eq_bound x f 0) as Hb.
  pose proof (where_eq_found x f 0 j fj Hn Hq) as Hne.
  assert (Hr : Forall (fun i => (i < length lv)%nat) (where_eq x f 0)).
  { eapply Forall_impl; [| exact Hb]. cbn. intros i Hi. lia. }
  destruct (take_indices_in_range lv _ Hr) as [vs [-> Hl]].
  destruct (where_eq x f 0); [now elim Hne |].
  destruct vs as [| v vs]; [discriminate |]. now exists v.
Qed.

Lemma scan_loop_succeeds lv f ts loc srv k ms :
  (length f <= length lv)%nat ->
  (forall m, In m ms -> Monitor.enabled m = true ->
             exists j fj, nth_error f j = Some fj /\
                          Monitor.frequency m == fj) ->
  snd (scan_loop lv f ts loc srv k ms) = None.
Proof.
  intros Hlen. revert k.
  induction ms as [| a ms IH]; intros k Hon; [reflexivity |].
  assert (Hrest : forall m, In m ms -> Monitor.enabled m = true ->
                  exists j fj, nth_error f j = Some fj /\
                               Monitor.frequency m == fj)
    by (intros m Hin; apply Hon; now right).
  specialize (IH (S k) Hrest). cbn [scan_loop].
  destruct (Monitor.enabled a) eqn:Hen.
  - destruct (Hon a (or_introl eq_refl) Hen) as [j [fj [Hn Hq]]].
    destruct (level_at_found f lv _ j fj Hlen Hn Hq) as [v ->].
    destruct (Monitor.set_level a (Some v) ts loc) as [m' sg].
    destruct (scan_loop lv f ts loc srv (S k) ms) as [[[r1 f1] u1] e1].
    exact IH.
  - destruct (scan_loop lv f ts loc srv (S k) ms) as [[[r1 f1] u1] e1].
    exact IH.
Qed.

(** X19.  A dispatch raises nothing when the sample has as many bins as
    the smoothed spectrum, the event's frequency axis is no longer than
    the sample, and the frequency of every enabled monitor is one of the
    frequencies of that axis. *)
Theorem dispatch_succeeds_on_axis (l f : list Q) (ts : Q) (s : Frame) :
  length l = length (levels s) ->
  (length f <= length l)%nat ->
  (forall m, In m (monitors s) -> Monitor.enabled m = true ->
             exists j fj, nth_error f j = Some fj /\
                          Monitor.frequency m == fj) ->
  snd (on_scan_data l f ts s) = None.
Proof.
  intros Hl Hf Hon. unfold on_scan_data.
  rewrite smooth_same_length by (now rewrite length_map).
  cbn [monitors location server set_levels].
  pose proof (scan_loop_succeeds (map (fun x => 10 * log10 x) l) f ts
                (location s) (server s) 0 (monitors s)
                ltac:(now rewrite length_map) Hon) as He.
  destruct (scan_loop _ f ts (location s) (server s) 0 (monitors s))
    as [[[ms fx] upd] e]. cbn [snd] in He. subst e. reflexivity.
Qed.

End Gui.

(** ** The claims on sample inputs *)

(** C1, counterexample.  A monitor tuned to 100.1 MHz lies between the bin
    centres 100 and 100.25 of the sample axis.  The lookup the
    specification describes gives it the level of the nearest bin, 20 dB;
    the lookup of the code finds no bin, the dispatch ends in [IndexError]
    and the monitor is handed nothing. *)
Lemma nearest_bin_not_routed :
  spec_level_at Sample.axis
    (map (fun x => 10 * Sample.log10 x) Sample.powers)
    (Monitor.frequency Sample.between) = Some 20 /\
  level_at Sample.axis
    (map (fun x => 10 * Sample.log10 x) Sample.powers)
    (Monitor.frequency Sample.between) = None /\
  snd (fst (on_scan_data Sample.log10 Sample.powers Sample.axis 7
              (Sample.frame_of [Sample.between] 0))) = [] /\
  snd (on_scan_data Sample.log10 Sample.powers Sample.axis 7
         (Sample.frame_of [Sample.between] 0)) = Some IndexError.
Proof. vm_compute. repeat split. Qed.

Lemma scan_data_routes_exact_bin_witness :
  nth_error (monitors (Sample.frame_of [Sample.idle] 0)) 0
    = Some Sample.idle /\
  Monitor.enabled Sample.idle = true /\
  exists i v,
    exact_bin Sample.axis (Monitor.frequency Sample.idle) i /\
    nth_error (map (fun x => 10 * Sample.log10 x) Sample.powers) i = Some v /\
    In (SetLevel 0 (Some v) 7 None)
       (snd (fst (on_scan_data Sample.log10 Sample.powers Sample.axis 7
                    (Sample.frame_of [Sample.idle] 0)))).
Proof.
  split; [reflexivity |]. split; [reflexivity |].
  pose proof (scan_data_routes_exact_bin Sample.log10 Sample.powers
                Sample.axis 7 (Sample.frame_of [Sample.idle] 0) 0
                Sample.idle eq_refl eq_refl) as H.
  cbv zeta in H.
  destruct (on_scan_data Sample.log10 Sample.powers Sample.axis 7
              (Sample.frame_of [Sample.idle] 0)) as [[s' fx] e] eqn:E.
  assert (He : e = None) by (vm_compute in E; congruence).
  destruct H as [_ [H _]]. exact (H He).
Defined.



(** C3, counterexample.  The stop callback hands [LEVEL_MIN] with
    timestamp [0] to a disabled monitor, and under the monitor of the
    specification this closes its open interval: the disabled monitor both
    receives a [set_level] call and changes state. *)
Lemma stop_updates_disabled_monitor :
  Monitor.enabled Sample.disabled_open = false /\
  snd (on_stop Sample.LEVEL_MIN (Sample.frame_of [Sample.disabled_open] 0))
    = [SetLevel 0 (Some Sample.LEVEL_MIN) 0 None] /\
  nth_error
    (monitors
       (fst (on_stop Sample.LEVEL_MIN
               (Sample.frame_of [Sample.disabled_open] 0)))) 0
    <> Some Sample.disabled_open /\
  Monitor.state_of Sample.disabled_open = Monitor.Open /\
  option_map Monitor.state_of
    (nth_error
       (monitors
          (fst (on_stop Sample.LEVEL_MIN
                  (Sample.frame_of [Sample.disabled_open] 0)))) 0)
    = Some Monitor.Idle.
Proof.
  vm_compute. repeat split. intro H. discriminate.
Qed.

Lemma disabled_monitor_frozen_in_dispatch_witness :
  nth_error (monitors (Sample.frame_of [Sample.disabled_open] 0)) 0
    = Some Sample.disabled_open /\
  Monitor.enabled Sample.disabled_open = false /\
  nth_error
    (monitors
       (fst (fst (on_scan_data Sample.log10 Sample.powers Sample.axis 7
                    (Sample.frame_of [Sample.disabled_open] 0))))) 0
    = Some Sample.disabled_open /\
  In (SetLevel 0 (Some Sample.LEVEL_MIN) 0 None)
     (snd (on_stop Sample.LEVEL_MIN
             (Sample.frame_of [Sample.disabled_open] 0))).
Proof.
  split; [reflexivity |]. split; [reflexivity |].
  destruct (disabled_monitor_frozen_in_dispatch Sample.log10 Sample.LEVEL_MIN
              Sample.powers Sample.axis 7
              (Sample.frame_of [Sample.disabled_open] 0) 0
              Sample.disabled_open eq_refl eq_refl) as [H [Hstop _]].
  split; [| exact Hstop].
  destruct (on_scan_data Sample.log10 Sample.powers Sample.axis 7
              (Sample.frame_of [Sample.disabled_open] 0)) as [[s' fx] e].
  exact (proj1 H).
Defined.

(** C4, the failing input.  An enabled, recording monitor has had an
    interval open since [t = 100] when the stop button is pressed.
    [__on_stop] calls [set_level(LEVEL_MIN, 0, None)]; the interval is
    closed with end [0], before its start, and the history is no longer
    ordered. *)
Theorem stop_closes_before_start :
  history_ordered Sample.open_since_100 /\
  map Monitor.signals
    (monitors
       (fst (on_stop Sample.LEVEL_MIN
               (Sample.frame_of [Sample.open_since_100] 0))))
    = [[mkSignal 100 (Some 0) None]] /\
  ~ ordered (mkSignal 100 (Some 0) None).
Proof.
  split; [constructor |]. split; [reflexivity |].
  unfold ordered. cbn. intro H. vm_compute in H. apply H. reflexivity.
Qed.

(** The control loop with the sample constants. *)
Local Abbreviation sample_run :=
  (run Sample.log10 Sample.LEVEL_MIN Sample.GPS_RETRY Sample.ALERT_LENGTH
     Sample.psd_freqs Sample.no_file Sample.new_panel).

Local Abbreviation sample_event :=
  (on_event Sample.log10 Sample.GPS_RETRY Sample.ALERT_LENGTH).

Local Abbreviation sample_init :=
  (fst (init Sample.BINS Sample.psd_freqs 100 0 0 true)).

Lemma scan_data_smooths_once_witness :
  length Sample.powers = length (levels (Sample.frame_of [Sample.between] 0))
  /\
  nth_error
    (levels
       (fst (fst (on_scan_data Sample.log10 Sample.powers Sample.axis 7
                    (Sample.frame_of [Sample.between] 0))))) 2
    = Some ((0 + 10 * Sample.log10 100) / 2).
Proof.
  split; [reflexivity |].
  destruct (scan_data_smooths_once Sample.log10 Sample.powers Sample.axis 7
              (Sample.frame_of [Sample.between] 0) eq_refl) as [_ [H _]].
  exact (H 2%nat 0 100 eq_refl eq_refl).
Defined.

(** C6, counterexample.  An alert was played at [t = 100]; two MON_ALERT
    events arrive at 101 and 102, less than [ALERT_LENGTH = 5] seconds
    apart, and the alert is played for neither of them. *)
Lemma close_pair_may_not_fire :
  102 - 101 < Sample.ALERT_LENGTH /\
  alertLast (Sample.frame_of [] 100) = 100 /\
  alerts (snd (sample_run [Ev MON_ALERT 101; Ev MON_ALERT 102]
                 (Sample.frame_of [] 100))) = 0%nat.
Proof. vm_compute. repeat split. Qed.

Lemma alert_gate_debounces_witness :
  forallb (fun o => negb (is_alert o)) [Ev (GPS_WARN "weak fix") 101] = true /\
  102 - 100 < Sample.ALERT_LENGTH /\
  Sample.ALERT_LENGTH <= 100 - alertLast (Sample.frame_of [] 0) /\
  alerts (snd (sample_run
                 (Ev MON_ALERT 100
                    :: [Ev (GPS_WARN "weak fix") 101] ++ [Ev MON_ALERT 102])
                 (Sample.frame_of [] 0))) = 1%nat.
Proof.
  assert (Hnear : 102 - 100 < Sample.ALERT_LENGTH) by reflexivity.
  assert (Hfar : Sample.ALERT_LENGTH <= 100 - alertLast (Sample.frame_of [] 0))
    by (vm_compute; discriminate).
  split; [reflexivity |]. split; [exact Hnear |]. split; [exact Hfar |].
  destruct (alert_gate_debounces Sample.log10 Sample.LEVEL_MIN
              Sample.GPS_RETRY Sample.ALERT_LENGTH Sample.psd_freqs
              Sample.no_file Sample.new_panel (Sample.frame_of [] 0)
              100 102 [Ev (GPS_WARN "weak fix") 101] eq_refl Hnear)
    as [_ [H _]].
  exact (H Hfar).
Defined.

Lemma first_alert_always_fires_witness :
  forallb (fun o => negb (is_alert o))
    [ToolStart; Ev (SCAN_DATA Sample.powers Sample.axis 7) 7] = true /\
  Sample.ALERT_LENGTH <= 1000 /\
  snd (fst (sample_event MON_ALERT 1000
              (fst (sample_run
                      [ToolStart; Ev (SCAN_DATA Sample.powers Sample.axis 7) 7]
                      sample_init)))) = [AlertPlay].
Proof.
  assert (Hnow : Sample.ALERT_LENGTH <= 1000) by (vm_compute; discriminate).
  split; [reflexivity |]. split; [exact Hnow |].
  destruct (first_alert_always_fires Sample.log10 Sample.BINS
              Sample.LEVEL_MIN Sample.GPS_RETRY Sample.ALERT_LENGTH
              Sample.psd_freqs Sample.no_file Sample.new_panel 100 0 0 true
              [ToolStart; Ev (SCAN_DATA Sample.powers Sample.axis 7) 7]
              1000 eq_refl Hnow) as [_ [_ H]].
  rewrite H. reflexivity.
Defined.

Lemma open_corrupt_leaves_state_witness :
  Sample.no_file "data/night.rfmon" = None /\
  open Sample.no_file Sample.new_panel "data/night.rfmon"
    (Sample.frame_of [Sample.idle] 0)
    = (Sample.frame_of [Sample.idle] 0,
       [MessageBox "'night.rfmon' is corrupt."]).
Proof.
  split; [reflexivity |].
  exact (proj1 (open_corrupt_leaves_state Sample.no_file Sample.new_panel
                  "data/night.rfmon" (Sample.frame_of [Sample.idle] 0)
                  eq_refl)).
Defined.

Lemma gps_restart_after_retry_witness :
  (GPS_TIMEOUT "no fix" = GPS_ERROR "no fix" \/
   GPS_TIMEOUT "no fix" = GPS_TIMEOUT "no fix") /\
  gps sample_init = Some 0%nat /\
  gps (fst (fst (sample_event (GPS_TIMEOUT "no fix") 50 sample_init))) = None /\
  timers (fst (fst (sample_event (GPS_TIMEOUT "no fix") 50 sample_init)))
    = [mkTimer 50 (Sample.GPS_RETRY * 1000)] /\
  expired 54 (mkTimer 50 (Sample.GPS_RETRY * 1000)) = false /\
  (exists g,
     gps (fst (fire_timers 55
                 (fst (fst (sample_event (GPS_TIMEOUT "no fix") 50
                              sample_init))))) = Some g).
Proof.
  split; [now right |]. split; [reflexivity |].
  destruct (gps_restart_after_retry Sample.log10 Sample.BINS
              Sample.LEVEL_MIN Sample.GPS_RETRY Sample.ALERT_LENGTH
              Sample.psd_freqs Sample.no_file Sample.new_panel 100 0 0 true
              [] (GPS_TIMEOUT "no fix") "no fix" 50 (or_intror eq_refl))
    as [[Hg [_ [Ht _]]] [Hearly [Hlate _]]].
  split; [exact Hg |]. split; [exact Ht |].
  split.
  - apply (Hearly 54). reflexivity.
  - assert (Hdue : 50 + Sample.GPS_RETRY <= 55) by (vm_compute; discriminate).
    destruct (Hlate 55 Hdue eq_refl) as [[g [Hgps _]] _].
    exists g. exact Hgps.
Defined.

(** ** Further properties on sample inputs *)

Lemma dispatch_failure_is_partial_witness :
  on_scan_data Sample.log10 Sample.powers Sample.axis 7
    (Sample.frame_of [Sample.idle; Sample.between] 0)
  = (fst (fst (on_scan_data Sample.log10 Sample.powers Sample.axis 7
                 (Sample.frame_of [Sample.idle; Sample.between] 0))),
     snd (fst (on_scan_data Sample.log10 Sample.powers Sample.axis 7
                 (Sample.frame_of [Sample.idle; Sample.between] 0))),
     Some IndexError) /\
  isSaved (fst (fst (on_scan_data Sample.log10 Sample.powers Sample.axis 7
                       (Sample.frame_of [Sample.idle; Sample.between] 0))))
  = isSaved (Sample.frame_of [Sample.idle; Sample.between] 0).
Proof.
  assert (H : on_scan_data Sample.log10 Sample.powers Sample.axis 7
                (Sample.frame_of [Sample.idle; Sample.between] 0)
              = (fst (fst (on_scan_data Sample.log10 Sample.powers
                             Sample.axis 7
                             (Sample.frame_of [Sample.idle; Sample.between]
                                0))),
                 snd (fst (on_scan_data Sample.log10 Sample.powers
                             Sample.axis 7
                             (Sample.frame_of [Sample.idle; Sample.between]
                                0))),
                 Some IndexError)) by reflexivity.
  split; [exact H |].
  destruct (dispatch_failure_is_partial Sample.log10 _ _ _ _ _ _ _ H)
    as [[Hx _] | [_ [Hs _]]]; [discriminate | exact Hs].
Defined.

Lemma dispatch_marks_unsaved_witness :
  on_scan_data Sample.log10 Sample.powers Sample.axis 107
    (Sample.frame_of [Sample.loud_open] 0)
  = (fst (fst (on_scan_data Sample.log10 Sample.powers Sample.axis 107
                 (Sample.frame_of [Sample.loud_open] 0))),
     snd (fst (on_scan_data Sample.log10 Sample.powers Sample.axis 107
                 (Sample.frame_of [Sample.loud_open] 0))),
     None) /\
  isSaved (fst (fst (on_scan_data Sample.log10 Sample.powers Sample.axis 107
                       (Sample.frame_of [Sample.loud_open] 0))))
  = false.
Proof.
  assert (H : on_scan_data Sample.log10 Sample.powers Sample.axis 107
                (Sample.frame_of [Sample.loud_open] 0)
              = (fst (fst (on_scan_data Sample.log10 Sample.powers
                             Sample.axis 107
                             (Sample.frame_of [Sample.loud_open] 0))),
                 snd (fst (on_scan_data Sample.log10 Sample.powers
                             Sample.axis 107
                             (Sample.frame_of [Sample.loud_open] 0))),
                 None)) by reflexivity.
  split; [exact H |].
  destruct (dispatch_marks_unsaved Sample.log10 _ _ _ _ _ _ H) as [_ Hs].
  rewrite Hs. reflexivity.
Defined.

Lemma dispatch_exports_each_signal_once_witness :
  is_some (server (Sample.frame_of [Sample.loud_open] 0)) = true /\
  (length
     (sent (snd (fst (on_scan_data Sample.log10 Sample.powers Sample.axis
                        107 (Sample.frame_of [Sample.loud_open] 0)))))
   + total_history (monitors (Sample.frame_of [Sample.loud_open] 0)))%nat
  = total_history
      (monitors
         (fst (fst (on_scan_data Sample.log10 Sample.powers Sample.axis
                      107 (Sample.frame_of [Sample.loud_open] 0))))).
Proof.
  split; [reflexivity |].
  exact (proj1 (dispatch_exports_each_signal_once Sample.log10
                  Sample.powers Sample.axis 107
                  (Sample.frame_of [Sample.loud_open] 0) eq_refl)).
Defined.

Lemma last_fix_tags_later_dispatches_witness :
  forallb (fun o => negb (is_fix o)) [Ev (GPS_TIMEOUT "no fix"%string) 50] = true /\
  location
    (fst (sample_run
            (Ev (GPS_LOC (51, 0)) 40 :: [Ev (GPS_TIMEOUT "no fix"%string) 50])
            (Sample.frame_of [Sample.idle] 0)))
  = Some (51, 0).
Proof.
  split; [reflexivity |].
  exact (proj1 (last_fix_tags_later_dispatches Sample.log10
                  Sample.LEVEL_MIN Sample.GPS_RETRY Sample.ALERT_LENGTH
                  Sample.psd_freqs Sample.no_file Sample.new_panel
                  (51, 0) 40 [Ev (GPS_TIMEOUT "no fix"%string) 50]
                  Sample.powers Sample.axis 60
                  (Sample.frame_of [Sample.idle] 0) eq_refl)).
Defined.

Lemma start_after_scan_error_witness :
  receive (on_start (Sample.frame_of [Sample.idle] 0))
    = Some (mkReceive 100 0 0) /\
  on_start (fst (on_scan_error "device lost"%string
                   (on_start (Sample.frame_of [Sample.idle] 0))))
    = on_start (Sample.frame_of [Sample.idle] 0).
Proof.
  split; [reflexivity |].
  exact (proj1 (start_after_scan_error Sample.LEVEL_MIN "device lost"%string
                  (on_start (Sample.frame_of [Sample.idle] 0))
                  (mkReceive 100 0 0) eq_refl)).
Defined.

Lemma only_save_and_open_mark_saved_witness :
  forallb (fun o => negb (is_save_or_open o))
    [ToolStart; Ev (SCAN_DATA Sample.powers Sample.axis 7) 7; ToolStop]
    = true /\
  isSaved (on_add Sample.new_panel (Sample.frame_of [] 0)) = false /\
  isSaved
    (fst (sample_run
            [ToolStart; Ev (SCAN_DATA Sample.powers Sample.axis 7) 7;
             ToolStop]
            (on_add Sample.new_panel (Sample.frame_of [] 0))))
  = false.
Proof.
  split; [reflexivity |]. split; [reflexivity |].
  exact (only_save_and_open_mark_saved Sample.log10 Sample.LEVEL_MIN
           Sample.GPS_RETRY Sample.ALERT_LENGTH Sample.psd_freqs
           Sample.no_file Sample.new_panel
           [ToolStart; Ev (SCAN_DATA Sample.powers Sample.axis 7) 7;
            ToolStop]
           (on_add Sample.new_panel (Sample.frame_of [] 0))
           eq_refl eq_refl).
Defined.

Lemma unsaved_frame_is_guarded_witness :
  isSaved (on_add Sample.new_panel (Sample.frame_of [] 0)) = false /\
  on_open Sample.night_file Sample.new_panel false (Some "night.rfmon"%string)
    (on_add Sample.new_panel (Sample.frame_of [] 0))
  = (on_add Sample.new_panel (Sample.frame_of [] 0),
     [MessageBox "Not saved, continue?"]).
Proof.
  split; [reflexivity |].
  exact (proj1 (unsaved_frame_is_guarded Sample.LEVEL_MIN Sample.night_file
                  Sample.new_panel
                  (on_add Sample.new_panel (Sample.frame_of [] 0))
                  (Some "night.rfmon"%string) "night.rfmon"%string true
                  eq_refl)).
Defined.

Lemma open_loads_monitors_in_order_witness :
  Sample.night_file "night.rfmon"%string = Some (100, 0, 0, [Sample.idle]) /\
  map Monitor.frequency
    (monitors
       (fst (open Sample.night_file Sample.new_panel "night.rfmon"%string
               (Sample.frame_of [Sample.between; Sample.loud_open] 0))))
  = map Monitor.frequency [Sample.idle].
Proof.
  split; [reflexivity |].
  destruct (open_loads_monitors_in_order Sample.night_file Sample.new_panel
              "night.rfmon"%string
              (Sample.frame_of [Sample.between; Sample.loud_open] 0)
              100 0 0 [Sample.idle] eq_refl)
    as [_ [_ [_ [_ [_ [H _]]]]]].
  exact H.
Defined.

Lemma exit_stops_everything_witness :
  (isSaved (fst (sample_run [ToolStart] sample_init)) = true \/ false = true)
  /\
  receive (fst (on_exit Sample.LEVEL_MIN false
                  (fst (sample_run [ToolStart] sample_init)))) = None /\
  running (fst (on_exit Sample.LEVEL_MIN false
                  (fst (sample_run [ToolStart] sample_init)))) = [].
Proof.
  assert (Hgo : isSaved (fst (sample_run [ToolStart] sample_init)) = true
                \/ false = true) by (left; reflexivity).
  split; [exact Hgo |].
  destruct (exit_stops_everything Sample.log10 Sample.BINS Sample.LEVEL_MIN
              Sample.GPS_RETRY Sample.ALERT_LENGTH Sample.psd_freqs
              Sample.no_file Sample.new_panel 100 0 0 true [ToolStart]
              false Hgo) as [H1 [_ [H2 _]]].
  split; [exact H1 | exact H2].
Defined.

Lemma dispatch_succeeds_on_axis_witness :
  length Sample.powers = length (levels (Sample.frame_of [Sample.idle] 0)) /\
  (length Sample.axis <= length Sample.powers)%nat /\
  snd (on_scan_data Sample.log10 Sample.powers Sample.axis 7
         (Sample.frame_of [Sample.idle] 0)) = None.
Proof.
  assert (Hf : (length Sample.axis <= length Sample.powers)%nat)
    by (cbn; lia).
  split; [reflexivity |]. split; [exact Hf |].
  apply (dispatch_succeeds_on_axis Sample.log10 Sample.powers Sample.axis 7
           (Sample.frame_of [Sample.idle] 0) eq_refl Hf).
  intros m [<- | []] _. exists 2%nat, 100. split; reflexivity.
Defined.

Lemma on_open_corrupt_marks_saved_witness :
  Sample.no_file "night.rfmon"%string = None /\
  (isSaved (on_add Sample.new_panel (Sample.frame_of [] 0)) = true
   \/ true = true) /\
  isSaved (on_add Sample.new_panel (Sample.frame_of [] 0)) = false /\
  isSaved
    (fst (on_open Sample.no_file Sample.new_panel true (Some "night.rfmon"%string)
            (on_add Sample.new_panel (Sample.frame_of [] 0))))
  = true.
Proof.
  split; [reflexivity |]. split; [now right |]. split; [reflexivity |].
  exact (proj1 (on_open_corrupt_marks_saved Sample.no_file Sample.new_panel
                  true "night.rfmon"%string
                  (on_add Sample.new_panel (Sample.frame_of [] 0))
                  eq_refl (or_intror eq_refl))).
Defined.

(** C9, counterexample.  Restart timers are never cancelled.  The position
    source fails at [t = 0]; the GPS dialog is confirmed and starts a new
    instance; that instance times out at [t = 3].  The timer armed by the
    first failure is due at [t = 5], and its callback starts an instance
    then, two seconds after the second failure although [GPS_RETRY] is
    five. *)
Lemma early_restart_by_older_timer :
  5 < 3 + Sample.GPS_RETRY /\
  gps (fst (sample_run
              [Ev (GPS_ERROR "lost"%string) 0; MenuGps true true;
               Ev (GPS_TIMEOUT "no fix"%string) 3]
              sample_init)) = None /\
  snd (fire_timers 5
         (fst (sample_run
                 [Ev (GPS_ERROR "lost"%string) 0; MenuGps true true;
                  Ev (GPS_TIMEOUT "no fix"%string) 3]
                 sample_init)))
  = [StatusText (Msg "Staring GPS..."); GpsCreate 2] /\
  gps (fst (fire_timers 5
              (fst (sample_run
                      [Ev (GPS_ERROR "lost"%string) 0; MenuGps true true;
                       Ev (GPS_TIMEOUT "no fix"%string) 3]
                      sample_init)))) = Some 2%nat.
Proof. vm_compute. repeat split. Qed.
